(** * AllBrainsWelcome: filter, vocabulary, loader and detail lookup

    A shallow embedding of the catalogue browser's scripts.  The repository
    holds three versions of the same page logic:

    - [Inline]: the first script of [Logic.js], whose dataset is a constant
      written in the script ("Initial Test Idea"), with two scalar filter
      groups ([category], [status]) and one array-valued group ([tech]);
    - [Fetched]: the second script of [Logic.js] and the stand-alone script,
      which load [Database.json] and filter on three array-valued fields
      (['Areas of support'], [Format], [Price]).  The two agree on every
      function modelled here (they differ in the fetched file's spelling and
      in how a checkbox's [id] attribute is sanitised).

    Strings are byte strings ([String.string]); for ASCII text the byte order
    used below is the UTF-16 code unit order JavaScript compares with.
    Numbers are the integer-valued ones, taken with their mathematical value
    (exact for magnitudes up to 2^53).  Markup is kept as data: a card, a
    checkbox or a modal block is the tuple of values its template
    interpolates. *)

From Stdlib Require Import ZArith String Ascii DecimalString List Bool Lia.
From Stdlib Require OrderedTypeEx DecimalPos.
From stdpp Require Import list sorting.
Import ListNotations.
Local Open Scope string_scope.

(** ** The JavaScript built-ins the scripts call *)
Module JS.

(** The values that reach [==] in [openModal]: a record's identifier as the
    data gives it (a number, a string, or no such property) and the requested
    id. *)
Inductive Value :=
| Undefined
| Number (z : Z)
| Str (s : string).

(** Outcome of evaluating an expression that may throw. *)
Inductive Completion (A : Type) :=
| Normal (a : A)
| TypeError (message : string).
Arguments Normal {A} a.
Arguments TypeError {A} message.

(** [arr.includes(v)] on an array of strings (SameValueZero is string
    equality there). *)
Definition includes (arr : list string) (v : string) : bool :=
  existsb (fun x => String.eqb x v) arr.

(** [arr.every(p)]. *)
Definition every {A : Type} (p : A -> bool) (arr : list A) : bool :=
  forallb p arr.

(** [x.includes(v)] where the receiver [x] is a property that may be
    missing: reading [includes] off [undefined] throws. *)
Definition member_includes (receiver : option (list string)) (v : string)
  : Completion bool :=
  match receiver with
  | Some arr => Normal (includes arr v)
  | None => TypeError "Cannot read properties of undefined (reading 'includes')"
  end.

(** [arr.every(p)] for a callback that may throw: stops at the first
    [false] and at the first exception. *)
Fixpoint every_throwing {A : Type} (p : A -> Completion bool) (arr : list A)
  : Completion bool :=
  match arr with
  | [] => Normal true
  | x :: rest =>
      match p x with
      | Normal true => every_throwing p rest
      | Normal false => Normal false
      | TypeError m => TypeError m
      end
  end.

(** [x || []] for an array-valued property [x]: a missing property is
    falsy, an array (even an empty one) is truthy. *)
Definition or_empty (x : option (list string)) : list string :=
  match x with
  | Some arr => arr
  | None => []
  end.

(** [arr.flatMap(f)]. *)
Definition flatMap {A B : Type} (f : A -> list B) (arr : list A) : list B :=
  concat (map f arr).

(** [new Set(arr)] read back with spread: values in insertion order, each
    kept at its first occurrence. *)
Definition Set_add (seen : list string) (v : string) : list string :=
  if includes seen v then seen else seen ++ [v].

Definition Set_from (arr : list string) : list string :=
  fold_left Set_add arr [].

(** [arr.sort()] without a comparator: elements are compared as strings,
    code unit by code unit.  [x] stays before [y] when [x <= y].  The engine
    chooses the algorithm; for strings the ascending rearrangement is unique
    ([sort_unique] below), so a merge sort stands for any of them. *)
Definition SortCompare_le (x y : string) : Prop := String.leb x y = true.

Global Instance SortCompare_le_dec : RelDecision SortCompare_le :=
  fun x y => bool_eq_dec (String.leb x y) true.

Definition sort (arr : list string) : list string :=
  merge_sort SortCompare_le arr.

(** [arr.find(p)]: the first element, in array order, that satisfies [p]. *)
Definition find {A : Type} (p : A -> bool) (arr : list A) : option A :=
  List.find p arr.

(** [`${n}`] for an integer-valued number. *)
Definition Number_toString (z : Z) : string :=
  NilZero.string_of_int (Z.to_int z).

(** [String(v)], as a template literal applies it to an identifier. *)
Definition ToString (v : Value) : string :=
  match v with
  | Undefined => "undefined"
  | Number z => Number_toString z
  | Str s => s
  end.

(** *** StringToNumber

    [ToNumber] applied to a string, as [==] does when it compares a number
    with a string.  The result is [Some z] when the string is a
    StringNumericLiteral whose value is the integer [z], and [None] when it
    is not a literal (NaN) or denotes an infinite or fractional value: no
    integer is equal to any of those. *)

Definition isWhiteSpace (c : ascii) : bool :=
  match N_of_ascii c with
  | 9%N | 10%N | 11%N | 12%N | 13%N | 32%N => true
  | _ => false
  end.

Fixpoint trimStart (cs : list ascii) : list ascii :=
  match cs with
  | c :: rest => if isWhiteSpace c then trimStart rest else cs
  | [] => []
  end.

Definition trim (s : string) : string :=
  string_of_list_ascii
    (rev (trimStart (rev (trimStart (list_ascii_of_string s))))).

(** DecimalDigits: one or more of [0]..[9]. *)
Definition DecimalDigits (s : string) : option N :=
  match s with
  | EmptyString => None
  | _ => option_map N.of_uint (NilEmpty.uint_of_string s)
  end.

(** SignedInteger: DecimalDigits with an optional sign. *)
Definition SignedInteger (s : string) : option Z :=
  match s with
  | String c r =>
      if Ascii.eqb c "+" then option_map Z.of_N (DecimalDigits r)
      else if Ascii.eqb c "-"
      then option_map (fun n => (- Z.of_N n)%Z) (DecimalDigits r)
      else option_map Z.of_N (DecimalDigits s)
  | EmptyString => None
  end.

(** The text before the first character satisfying [p], and the text after
    it when there is one. *)
Fixpoint split_at (p : ascii -> bool) (s : string) : string * option string :=
  match s with
  | EmptyString => (EmptyString, None)
  | String c rest =>
      if p c then (EmptyString, Some rest)
      else let (before, after) := split_at p rest in (String c before, after)
  end.

Definition is_exponent_indicator (c : ascii) : bool :=
  (Ascii.eqb c "e" || Ascii.eqb c "E")%bool.

Definition is_dot (c : ascii) : bool := Ascii.eqb c ".".

(** Digits that may be absent on one side of the decimal point. *)
Definition optional_digits (s : string) : option N :=
  match s with
  | EmptyString => Some 0%N
  | _ => DecimalDigits s
  end.

(** StrUnsignedDecimalLiteral other than [Infinity]:
    digits, [digits.digits], [digits.] or [.digits], then an optional
    exponent.  The value is (integer part ++ fraction) * 10^(exponent - number
    of fraction digits); it is returned when it is an integer. *)
Definition StrUnsignedDecimalLiteral (s : string) : option Z :=
  let (mantissa, exponent_part) := split_at is_exponent_indicator s in
  let (int_part, frac_part) := split_at is_dot mantissa in
  let frac := match frac_part with Some f => f | None => EmptyString end in
  let well_formed :=
    match frac_part with
    | None => negb (String.eqb int_part EmptyString)
    | Some f => negb (String.eqb int_part EmptyString && String.eqb f EmptyString)
    end in
  let exponent :=
    match exponent_part with
    | None => Some 0%Z
    | Some e => SignedInteger e
    end in
  if well_formed then
    match optional_digits int_part, optional_digits frac, exponent with
    | Some i, Some f, Some e =>
        let digits := (Z.of_N i * 10 ^ Z.of_nat (String.length frac) + Z.of_N f)%Z in
        let scale := (e - Z.of_nat (String.length frac))%Z in
        if (0 <=? scale)%Z then Some (digits * 10 ^ scale)%Z
        else if (digits mod 10 ^ (- scale) =? 0)%Z
             then Some (digits / 10 ^ (- scale))%Z
             else None
    | _, _, _ => None
    end
  else None.

(** StrDecimalLiteral: an optional sign before the unsigned literal. *)
Definition StrDecimalLiteral (s : string) : option Z :=
  match s with
  | String c r =>
      if Ascii.eqb c "+" then StrUnsignedDecimalLiteral r
      else if Ascii.eqb c "-" then option_map Z.opp (StrUnsignedDecimalLiteral r)
      else StrUnsignedDecimalLiteral s
  | EmptyString => None
  end.

(** Value of one digit in a radix up to 16. *)
Definition digit_value (c : ascii) : option N :=
  let n := N_of_ascii c in
  if ((48 <=? n) && (n <=? 57))%N then Some (n - 48)%N
  else if ((97 <=? n) && (n <=? 102))%N then Some (n - 87)%N
  else if ((65 <=? n) && (n <=? 70))%N then Some (n - 55)%N
  else None.

Fixpoint radix_digits (radix : N) (s : string) (acc : N) : option N :=
  match s with
  | EmptyString => Some acc
  | String c rest =>
      match digit_value c with
      | Some d =>
          if (d <? radix)%N then radix_digits radix rest (acc * radix + d)%N
          else None
      | None => None
      end
  end.

(** NonDecimalIntegerLiteral: [0b], [0o] or [0x] (either case) and at least
    one digit of that radix; no sign is allowed. *)
Definition NonDecimalIntegerLiteral (s : string) : option Z :=
  match s with
  | String z (String p (String c rest)) =>
      let digits := String c rest in
      if negb (Ascii.eqb z "0") then None
      else if (Ascii.eqb p "x" || Ascii.eqb p "X")%bool
      then option_map Z.of_N (radix_digits 16 digits 0)
      else if (Ascii.eqb p "o" || Ascii.eqb p "O")%bool
      then option_map Z.of_N (radix_digits 8 digits 0)
      else if (Ascii.eqb p "b" || Ascii.eqb p "B")%bool
      then option_map Z.of_N (radix_digits 2 digits 0)
      else None
  | _ => None
  end.

Definition StringToNumber (s : string) : option Z :=
  let t := trim s in
  match t with
  | EmptyString => Some 0%Z
  | _ =>
      match NonDecimalIntegerLiteral t with
      | Some z => Some z
      | None => StrDecimalLiteral t
      end
  end.

(** [x == y] (IsLooselyEqual) on identifiers: values of one type compare
    strictly; a number and a string compare after the string is converted
    with [StringToNumber]; [undefined] is loosely equal only to itself. *)
Definition looseEq (x y : Value) : bool :=
  match x, y with
  | Undefined, Undefined => true
  | Number a, Number b => (a =? b)%Z
  | Str a, Str b => String.eqb a b
  | Number a, Str b =>
      match StringToNumber b with
      | Some n => (a =? n)%Z
      | None => false
      end
  | Str a, Number b =>
      match StringToNumber a with
      | Some n => (n =? b)%Z
      | None => false
      end
  | _, _ => false
  end.

End JS.


(** ** The page: the parts of the document the scripts read and write *)
Module Dom.

(** A result card: the values [renderCard] interpolates into its markup. *)
Record Card := {
  data_id : string;
  card_title : string;
  card_text : string;
  card_badges : list string
}.

(** A filter checkbox: the [name] and [value] given to [createCheckbox]. *)
Record Checkbox := {
  checkbox_name : string;
  checkbox_value : string
}.

(** A block of the modal's body. *)
Inductive Block :=
| Paragraph (text : string)
| BadgeSection (heading : string) (badges : list string)
| LinkSection (href : string)
| TextSection (heading : string) (text : string).

(** A callback handed to [setTimeout]. *)
Inductive Task :=
| ShowModalPanel.

(** [#results-grid], [#no-results] and [#results-count]. *)
Record Results := {
  resultsGrid_innerHTML : list Card;
  resultsGrid_hidden : bool;
  noResultsMessage_hidden : bool;
  noResultsMessage_h3 : string;
  noResultsMessage_p : string;
  resultsCount_textContent : string
}.

(** The modal's elements, [document.body]'s overflow style and the timers
    [openModal] has scheduled (delay in milliseconds). *)
Record Modal := {
  modalTitle_textContent : string;
  modalContent_innerHTML : list Block;
  infoModalContainer_hidden : bool;
  infoModal_hidden : bool;
  body_style_overflow : string;
  timers : list (nat * Task)
}.

End Dom.

(** ** The scripts that load [Database.json] *)
Module Fetched.
Import Dom.

(** A record of [Database.json].  The three array-valued fields may be
    missing; so may the link and the note. *)
Record Resource := {
  Index : JS.Value;
  Name : string;
  Summary : string;
  Areas_of_support : option (list string);
  Format : option (list string);
  Price : option (list string);
  Link : option string;
  Further_info : option string
}.

(** The checked values of the filter form, one list per checkbox name, as
    [formData.getAll] returns them. *)
Record Selection := {
  selectedAreasOfSupport : list string;
  selectedFormats : list string;
  selectedPrices : list string
}.

Record Page := {
  results : Results;
  modal : Modal;
  areasOfSupportContainer_innerHTML : list Checkbox;
  formatContainer_innerHTML : list Checkbox;
  priceContainer_innerHTML : list Checkbox;
  loadingIndicator_hidden : bool
}.

(** The script's variables: [database] and the document. *)
Record State := {
  database : list Resource;
  page : Page
}.

(** [let database = []] over the page as the markup gives it. *)
Definition initial (markup : Page) : State :=
  {| database := []; page := markup |}.

Definition with_results (st : State) (r : Results) : State :=
  {| database := database st;
     page := {| results := r;
                modal := modal (page st);
                areasOfSupportContainer_innerHTML :=
                  areasOfSupportContainer_innerHTML (page st);
                formatContainer_innerHTML := formatContainer_innerHTML (page st);
                priceContainer_innerHTML := priceContainer_innerHTML (page st);
                loadingIndicator_hidden := loadingIndicator_hidden (page st) |} |}.

Definition with_modal (st : State) (m : Modal) : State :=
  {| database := database st;
     page := {| results := results (page st);
                modal := m;
                areasOfSupportContainer_innerHTML :=
                  areasOfSupportContainer_innerHTML (page st);
                formatContainer_innerHTML := formatContainer_innerHTML (page st);
                priceContainer_innerHTML := priceContainer_innerHTML (page st);
                loadingIndicator_hidden := loadingIndicator_hidden (page st) |} |}.

Definition with_loadingIndicator_hidden (st : State) (h : bool) : State :=
  {| database := database st;
     page := {| results := results (page st);
                modal := modal (page st);
                areasOfSupportContainer_innerHTML :=
                  areasOfSupportContainer_innerHTML (page st);
                formatContainer_innerHTML := formatContainer_innerHTML (page st);
                priceContainer_innerHTML := priceContainer_innerHTML (page st);
                loadingIndicator_hidden := h |} |}.

Definition with_database (st : State) (records : list Resource) : State :=
  {| database := records; page := page st |}.

Definition with_resultsCount (st : State) (text : string) : State :=
  with_results st
    {| resultsGrid_innerHTML := resultsGrid_innerHTML (results (page st));
       resultsGrid_hidden := resultsGrid_hidden (results (page st));
       noResultsMessage_hidden := noResultsMessage_hidden (results (page st));
       noResultsMessage_h3 := noResultsMessage_h3 (results (page st));
       noResultsMessage_p := noResultsMessage_p (results (page st));
       resultsCount_textContent := text |}.

(** [renderCard(item)]. *)
Definition renderCard (item : Resource) : Card :=
  {| data_id := JS.ToString (Index item);
     card_title := Name item;
     card_text := Summary item;
     card_badges := JS.or_empty (Format item) |}.

(** [populateResults(items)]. *)
Definition populateResults (st : State) (items : list Resource) : State :=
  let r := results (page st) in
  let shown := (0 <? List.length items)%nat in
  with_results st
    {| resultsGrid_innerHTML := if shown then map renderCard items else [];
       resultsGrid_hidden := negb shown;
       noResultsMessage_hidden := shown;
       noResultsMessage_h3 := noResultsMessage_h3 r;
       noResultsMessage_p := noResultsMessage_p r;
       resultsCount_textContent :=
         "Showing " ++ JS.Number_toString (Z.of_nat (List.length items))
         ++ " of " ++ JS.Number_toString (Z.of_nat (List.length (database st)))
         ++ " results" |}.

(** [createCheckbox(name, value)]. *)
Definition createCheckbox (name value : string) : Checkbox :=
  {| checkbox_name := name; checkbox_value := value |}.

(** The sorted, deduplicated values of one array-valued field:
    [[...new Set(database.flatMap(item => item.F || []))].sort()]. *)
Definition vocabulary (field : Resource -> option (list string))
  (database : list Resource) : list string :=
  JS.sort (JS.Set_from (JS.flatMap (fun item => JS.or_empty (field item)) database)).

(** [populateFilters()]: the three containers are emptied, then filled with
    one checkbox per value. *)
Definition populateFilters (st : State) : State :=
  let areasOfSupport := vocabulary Areas_of_support (database st) in
  let formats := vocabulary Format (database st) in
  let prices := vocabulary Price (database st) in
  {| database := database st;
     page := {| results := results (page st);
                modal := modal (page st);
                areasOfSupportContainer_innerHTML :=
                  map (createCheckbox "areas-of-support") areasOfSupport;
                formatContainer_innerHTML := map (createCheckbox "format") formats;
                priceContainer_innerHTML := map (createCheckbox "price") prices;
                loadingIndicator_hidden := loadingIndicator_hidden (page st) |} |}.

(** One group's test in the callback of [database.filter]:
    [selected.length === 0 || selected.every(v => (item.F || []).includes(v))]. *)
Definition groupMatch (selected : list string) (field : option (list string))
  : bool :=
  (List.length selected =? 0)%nat
  || JS.every (fun v => JS.includes (JS.or_empty field) v) selected.

(** The callback of [database.filter] in [filterData]. *)
Definition Matches (sel : Selection) (item : Resource) : bool :=
  let areasOfSupportMatch :=
    groupMatch (selectedAreasOfSupport sel) (Areas_of_support item) in
  let formatMatch := groupMatch (selectedFormats sel) (Format item) in
  let priceMatch := groupMatch (selectedPrices sel) (Price item) in
  areasOfSupportMatch && formatMatch && priceMatch.

(** The same callback with property access made explicit: the receiver of
    [includes] is [(item.F || [])], and a call on [undefined] would throw. *)
Definition groupMatch_eval (selected : list string) (field : option (list string))
  : JS.Completion bool :=
  if (List.length selected =? 0)%nat then JS.Normal true
  else JS.every_throwing
         (fun v => JS.member_includes (Some (JS.or_empty field)) v) selected.

Definition Matches_eval (sel : Selection) (item : Resource) : JS.Completion bool :=
  match groupMatch_eval (selectedAreasOfSupport sel) (Areas_of_support item) with
  | JS.TypeError m => JS.TypeError m
  | JS.Normal areasOfSupportMatch =>
      match groupMatch_eval (selectedFormats sel) (Format item) with
      | JS.TypeError m => JS.TypeError m
      | JS.Normal formatMatch =>
          match groupMatch_eval (selectedPrices sel) (Price item) with
          | JS.TypeError m => JS.TypeError m
          | JS.Normal priceMatch =>
              JS.Normal (areasOfSupportMatch && formatMatch && priceMatch)
          end
      end
  end.

(** [database.filter(item => ...)] in [filterData]. *)
Definition filteredItems (database : list Resource) (sel : Selection)
  : list Resource :=
  List.filter (Matches sel) database.

(** [filterData()], with the form's checked values as [sel]. *)
Definition filterData (st : State) (sel : Selection) : State :=
  populateResults st (filteredItems (database st) sel).

(** What the awaited calls of [fetchDatabase] can produce: [fetch] rejects;
    or it resolves to a response with its [ok] flag and status, whose
    [json()] rejects or resolves to the records. *)
Inductive Body :=
| InvalidJSON
| Json (records : list Resource).

Inductive FetchResult :=
| Rejected (reason : string)
| Response (ok : bool) (status : Z) (body : Body).

(** The [try] block up to the first [await]. *)
Definition fetch_started (st : State) : State :=
  with_resultsCount (with_loadingIndicator_hidden st false) "Loading data...".

(** The [catch] block. *)
Definition fetch_failed (st : State) : State :=
  with_results st
    {| resultsGrid_innerHTML := resultsGrid_innerHTML (results (page st));
       resultsGrid_hidden := resultsGrid_hidden (results (page st));
       noResultsMessage_hidden := false;
       noResultsMessage_h3 := "Error loading data";
       noResultsMessage_p := "Please try again later.";
       resultsCount_textContent := "Failed to load data." |}.

(** [fetchDatabase()], run to completion on the outcome of its awaits. *)
Definition fetchDatabase (st : State) (outcome : FetchResult) : State :=
  let st1 := fetch_started st in
  let st2 :=
    match outcome with
    | Rejected _ => fetch_failed st1
    | Response false _ _ => fetch_failed st1
    | Response true _ InvalidJSON => fetch_failed st1
    | Response true _ (Json records) =>
        let st' := populateFilters (with_database st1 records) in
        populateResults st' (database st')
    end in
  with_loadingIndicator_hidden st2 true.

(** The optional sections of the modal's body. *)
Definition badge_section (heading : string) (field : option (list string))
  : list Block :=
  match field with
  | Some (v :: vs) => [BadgeSection heading (v :: vs)]
  | _ => []
  end.

Definition link_section (link : option string) : list Block :=
  match link with
  | Some (String c rest) => [LinkSection (String c rest)]
  | _ => []
  end.

Definition further_info_section (info : option string) : list Block :=
  match info with
  | Some (String c rest) => [TextSection "Further Information" (String c rest)]
  | _ => []
  end.

(** [database.find(i => i.Index == itemId)]. *)
Definition Lookup (database : list Resource) (itemId : JS.Value)
  : option Resource :=
  JS.find (fun i => JS.looseEq (Index i) itemId) database.

(** [openModal(itemId)]. *)
Definition openModal (st : State) (itemId : JS.Value) : State :=
  match Lookup (database st) itemId with
  | None => st
  | Some item =>
      with_modal st
        {| modalTitle_textContent := Name item;
           modalContent_innerHTML :=
             Paragraph (Summary item)
             :: badge_section "Areas of Support" (Areas_of_support item)
             ++ badge_section "Format" (Format item)
             ++ badge_section "Price" (Price item)
             ++ link_section (Link item)
             ++ further_info_section (Further_info item);
           infoModalContainer_hidden := false;
           infoModal_hidden := infoModal_hidden (modal (page st));
           body_style_overflow := "hidden";
           timers := timers (modal (page st)) ++ [(10%nat, ShowModalPanel)] |}
  end.

(** The click listener of the results grid: [openModal(card.dataset.id)]. *)
Definition card_clicked (st : State) (card : Card) : State :=
  openModal st (JS.Str (data_id card)).

End Fetched.

(** ** The script with the dataset written inline *)
Module Inline.
Import Dom.

Record Project := {
  id : Z;
  title : string;
  description : string;
  category : string;
  status : string;
  tech : list string
}.

(** [const database = [...]]. *)
Definition database : list Project :=
  [ {| id := 1; title := "E-commerce Platform";
       description := "A full-featured e-commerce platform with a custom CMS, product management, and a secure checkout process. Built for scalability and high traffic.";
       category := "Web Development"; status := "Completed";
       tech := ["React"; "Node.js"; "PostgreSQL"] |};
    {| id := 2; title := "Mobile Banking App";
       description := "A native mobile application for iOS and Android that allows users to manage their bank accounts, transfer funds, and pay bills securely.";
       category := "Mobile App"; status := "In Progress";
       tech := ["Swift"; "Kotlin"; "Firebase"] |};
    {| id := 3; title := "Data Analytics Dashboard";
       description := "An interactive dashboard for visualizing complex sales and marketing data, with real-time updates and customizable reports.";
       category := "Data Science"; status := "Completed";
       tech := ["Python"; "D3.js"; "React"] |};
    {| id := 4; title := "Company Website Redesign";
       description := "A complete overhaul of the corporate website to improve user experience, accessibility, and search engine optimization.";
       category := "Web Development"; status := "Planning";
       tech := ["HTML"; "CSS"; "JavaScript"] |};
    {| id := 5; title := "Inventory Management System";
       description := "A web-based system for tracking inventory across multiple warehouses, with barcode scanning and automated reordering features.";
       category := "Web Development"; status := "In Progress";
       tech := ["React"; "Firebase"] |};
    {| id := 6; title := "Fitness Tracker App";
       description := "A cross-platform mobile app that tracks user workouts, sets goals, and provides social sharing features.";
       category := "Mobile App"; status := "Completed";
       tech := ["React Native"; "GraphQL"] |};
    {| id := 7; title := "AI Chatbot Integration";
       description := "An AI-powered chatbot integrated into the customer support portal to answer common questions and escalate complex issues to human agents.";
       category := "AI/ML"; status := "In Progress";
       tech := ["Python"; "TensorFlow"; "Dialogflow"] |};
    {| id := 8; title := "Marketing Campaign Analytics";
       description := "A data pipeline and visualization tool to track the performance of marketing campaigns across various channels.";
       category := "Data Science"; status := "Planning";
       tech := ["Python"; "Tableau"; "SQL"] |} ].

(** The checked values of the filter form, per checkbox name. *)
Record Selection := {
  selectedCategories : list string;
  selectedStatuses : list string;
  selectedTech : list string
}.

Record Page := {
  results : Results;
  modal : Modal;
  categoryContainer_innerHTML : list Checkbox;
  statusContainer_innerHTML : list Checkbox;
  techContainer_innerHTML : list Checkbox
}.

(** The functions below take the dataset they close over as [db]; the
    script runs them with [db := database]. *)

(** [renderCard(item)]. *)
Definition renderCard (item : Project) : Card :=
  {| data_id := JS.Number_toString (id item);
     card_title := title item;
     card_text := description item;
     card_badges := tech item |}.

(** [populateResults(items)]. *)
Definition populateResults (db : list Project) (pg : Page) (items : list Project)
  : Page :=
  let r := results pg in
  let shown := (0 <? List.length items)%nat in
  {| results :=
       {| resultsGrid_innerHTML := if shown then map renderCard items else [];
          resultsGrid_hidden := negb shown;
          noResultsMessage_hidden := shown;
          noResultsMessage_h3 := noResultsMessage_h3 r;
          noResultsMessage_p := noResultsMessage_p r;
          resultsCount_textContent :=
            "Showing " ++ JS.Number_toString (Z.of_nat (List.length items))
            ++ " of " ++ JS.Number_toString (Z.of_nat (List.length db))
            ++ " results" |};
     modal := modal pg;
     categoryContainer_innerHTML := categoryContainer_innerHTML pg;
     statusContainer_innerHTML := statusContainer_innerHTML pg;
     techContainer_innerHTML := techContainer_innerHTML pg |}.

(** [createCheckbox(name, value)]. *)
Definition createCheckbox (name value : string) : Checkbox :=
  {| checkbox_name := name; checkbox_value := value |}.

(** [[...new Set(database.map(item => item.category))].sort()] and its two
    siblings. *)
Definition categories (db : list Project) : list string :=
  JS.sort (JS.Set_from (map category db)).

Definition statuses (db : list Project) : list string :=
  JS.sort (JS.Set_from (map status db)).

Definition allTech (db : list Project) : list string :=
  JS.sort (JS.Set_from (JS.flatMap tech db)).

(** [populateFilters()]: checkboxes are appended to the three containers. *)
Definition populateFilters (db : list Project) (pg : Page) : Page :=
  {| results := results pg;
     modal := modal pg;
     categoryContainer_innerHTML :=
       categoryContainer_innerHTML pg
       ++ map (createCheckbox "category") (categories db);
     statusContainer_innerHTML :=
       statusContainer_innerHTML pg ++ map (createCheckbox "status") (statuses db);
     techContainer_innerHTML :=
       techContainer_innerHTML pg ++ map (createCheckbox "tech") (allTech db) |}.

(** The callback of [database.filter] in [filterData]. *)
Definition Matches (sel : Selection) (item : Project) : bool :=
  let categoryMatch :=
    (List.length (selectedCategories sel) =? 0)%nat
    || JS.includes (selectedCategories sel) (category item) in
  let statusMatch :=
    (List.length (selectedStatuses sel) =? 0)%nat
    || JS.includes (selectedStatuses sel) (status item) in
  let techMatch :=
    (List.length (selectedTech sel) =? 0)%nat
    || JS.every (fun t => JS.includes (tech item) t) (selectedTech sel) in
  categoryMatch && statusMatch && techMatch.

(** [database.filter(item => ...)] in [filterData]. *)
Definition filteredItems (db : list Project) (sel : Selection) : list Project :=
  List.filter (Matches sel) db.

(** [filterData()], with the form's checked values as [sel]. *)
Definition filterData (db : list Project) (pg : Page) (sel : Selection) : Page :=
  populateResults db pg (filteredItems db sel).

(** [database.find(i => i.id == itemId)]. *)
Definition Lookup (db : list Project) (itemId : JS.Value) : option Project :=
  JS.find (fun i => JS.looseEq (JS.Number (id i)) itemId) db.

(** [openModal(itemId)]. *)
Definition openModal (db : list Project) (pg : Page) (itemId : JS.Value) : Page :=
  match Lookup db itemId with
  | None => pg
  | Some item =>
      {| results := results pg;
         modal :=
           {| modalTitle_textContent := title item;
              modalContent_innerHTML :=
                [Paragraph (description item);
                 BadgeSection "Tech Stack" (tech item)];
              infoModalContainer_hidden := false;
              infoModal_hidden := infoModal_hidden (modal pg);
              body_style_overflow := "hidden";
              timers := timers (modal pg) ++ [(10%nat, ShowModalPanel)] |};
         categoryContainer_innerHTML := categoryContainer_innerHTML pg;
         statusContainer_innerHTML := statusContainer_innerHTML pg;
         techContainer_innerHTML := techContainer_innerHTML pg |}
  end.

(** The click listener of the results grid: [openModal(card.dataset.id)]. *)
Definition card_clicked (db : list Project) (pg : Page) (card : Card) : Page :=
  openModal db pg (JS.Str (data_id card)).

End Inline.

(** ** The specification's words *)
Module Spec.

(** Strictly ascending in the order [sort] compares with. *)
Definition str_lt (x y : string) : Prop := String.ltb x y = true.

(** "The record's array field contains every value present in that group's
    current selection." *)
Definition contains_every (field selection : list string) : Prop :=
  forall v, v ∈ selection -> v ∈ field.

(** A record seen through its filter groups: for each group, the record's
    array for it (empty if absent) paired with the group's selection.
    "The record is a match only if all groups impose no violation." *)
Definition no_group_violated (groups : list (list string * list string)) : Prop :=
  Forall (fun g => contains_every (fst g) (snd g)) groups.

(** Strings made of decimal digits only. *)
Definition is_decimal_digit (c : ascii) : bool :=
  ((48 <=? N_of_ascii c) && (N_of_ascii c <=? 57))%N.

Fixpoint all_digits (s : string) : bool :=
  match s with
  | EmptyString => true
  | String c rest => is_decimal_digit c && all_digits rest
  end.

(** [V] is the vocabulary of the values that [occur]: strictly ascending
    (so without duplicates), and holding exactly those values. *)
Definition is_vocabulary_of (occur : string -> Prop) (V : list string) : Prop :=
  StronglySorted str_lt V /\ forall v, v ∈ V <-> occur v.

(** "Any two records in the result appear in the same relative order as
    in the dataset": when [a] stands before [b] in [result], some occurrence
    of [a] stands before some occurrence of [b] in [whole]. *)
Definition same_relative_order {A : Type} (result whole : list A) : Prop :=
  forall (i j : nat) (a b : A),
    (i < j)%nat -> result !! i = Some a -> result !! j = Some b ->
    exists i' j', (i' < j')%nat /\ whole !! i' = Some a /\ whole !! j' = Some b.

(** The selection [longer] is [shorter] with the value [v] added at some
    position (the form lists checked values in document order). *)
Definition adds_value (v : string) (shorter longer : list string) : Prop :=
  exists before after,
    shorter = (before ++ after)%list /\ longer = (before ++ v :: after)%list.

End Spec.

(** The filter groups of the scripts that load [Database.json]. *)
Module FetchedGroups.
Import Fetched.

Inductive Group := AreasOfSupport | FormatGroup | PriceGroup.

Global Instance FetchedGroup_eq_dec : EqDecision Group.
Proof. solve_decision. Defined.

Definition field_of (g : Group) (item : Resource) : option (list string) :=
  match g with
  | AreasOfSupport => Areas_of_support item
  | FormatGroup => Format item
  | PriceGroup => Price item
  end.

Definition selection_of (g : Group) (sel : Selection) : list string :=
  match g with
  | AreasOfSupport => selectedAreasOfSupport sel
  | FormatGroup => selectedFormats sel
  | PriceGroup => selectedPrices sel
  end.

(** The record with the field of group [g] replaced. *)
Definition set_field (g : Group) (x : option (list string)) (item : Resource)
  : Resource :=
  {| Index := Index item; Name := Name item; Summary := Summary item;
     Areas_of_support :=
       match g with AreasOfSupport => x | _ => Areas_of_support item end;
     Format := match g with FormatGroup => x | _ => Format item end;
     Price := match g with PriceGroup => x | _ => Price item end;
     Link := Link item; Further_info := Further_info item |}.

(** The record's array (empty if absent) and the selection, per group. *)
Definition groups (sel : Selection) (item : Resource)
  : list (list string * list string) :=
  map (fun g => (JS.or_empty (field_of g item), selection_of g sel))
      [AreasOfSupport; FormatGroup; PriceGroup].

(** [sel'] is [sel] with [v] added to the selection of group [g]. *)
Definition extended (g : Group) (v : string) (sel sel' : Selection) : Prop :=
  Spec.adds_value v (selection_of g sel) (selection_of g sel')
  /\ forall g', g' <> g -> selection_of g' sel' = selection_of g' sel.

(** No checkbox checked. *)
Definition no_selection : Selection :=
  {| selectedAreasOfSupport := []; selectedFormats := []; selectedPrices := [] |}.

(** The container [populateFilters] fills for group [g]. *)
Definition container_of (g : Group) (pg : Page) : list Dom.Checkbox :=
  match g with
  | AreasOfSupport => areasOfSupportContainer_innerHTML pg
  | FormatGroup => formatContainer_innerHTML pg
  | PriceGroup => priceContainer_innerHTML pg
  end.

End FetchedGroups.

(** The filter groups of the script with the inline dataset. *)
Module InlineGroups.
Import Inline.

Inductive Group := Category | Status | Tech.

Global Instance InlineGroup_eq_dec : EqDecision Group.
Proof. solve_decision. Defined.

Definition selection_of (g : Group) (sel : Selection) : list string :=
  match g with
  | Category => selectedCategories sel
  | Status => selectedStatuses sel
  | Tech => selectedTech sel
  end.

(** The scalar value a record has for a scalar group. *)
Definition scalar_of (g : Group) (item : Project) : option string :=
  match g with
  | Category => Some (category item)
  | Status => Some (status item)
  | Tech => None
  end.

Definition extended (g : Group) (v : string) (sel sel' : Selection) : Prop :=
  Spec.adds_value v (selection_of g sel) (selection_of g sel')
  /\ forall g', g' <> g -> selection_of g' sel' = selection_of g' sel.

Definition no_selection : Selection :=
  {| selectedCategories := []; selectedStatuses := []; selectedTech := [] |}.

End InlineGroups.

(** ** Sample data used to exercise the statements *)
Module Samples.
Import Fetched.

(** The scenario dataset [[{id:1, tags:[A,B]}, {id:2, tags:[B]}]], with
    [Format] as the tag group. *)
Definition record1 : Resource :=
  {| Index := JS.Number 1; Name := "First"; Summary := "One";
     Areas_of_support := None; Format := Some ["A"; "B"]; Price := None;
     Link := None; Further_info := None |}.

Definition record2 : Resource :=
  {| Index := JS.Number 2; Name := "Second"; Summary := "Two";
     Areas_of_support := None; Format := Some ["B"]; Price := None;
     Link := None; Further_info := None |}.

Definition dataset : list Resource := [record1; record2].

Definition select_A : Selection :=
  {| selectedAreasOfSupport := []; selectedFormats := ["A"]; selectedPrices := [] |}.

Definition select_A_B : Selection :=
  {| selectedAreasOfSupport := []; selectedFormats := ["A"; "B"];
     selectedPrices := [] |}.

(** Two records that share the identifier 3, the second one as a string. *)
Definition twin_a : Resource :=
  {| Index := JS.Number 3; Name := "Earlier"; Summary := "";
     Areas_of_support := None; Format := None; Price := None;
     Link := None; Further_info := None |}.

Definition twin_b : Resource :=
  {| Index := JS.Str "3"; Name := "Later"; Summary := "";
     Areas_of_support := None; Format := None; Price := None;
     Link := None; Further_info := None |}.

(** A page before any script has run (sample markup). *)
Definition blank_results : Dom.Results :=
  {| Dom.resultsGrid_innerHTML := []; Dom.resultsGrid_hidden := false;
     Dom.noResultsMessage_hidden := true;
     Dom.noResultsMessage_h3 := "No results found";
     Dom.noResultsMessage_p := "Try adjusting your filters.";
     Dom.resultsCount_textContent := "" |}.

Definition blank_modal : Dom.Modal :=
  {| Dom.modalTitle_textContent := ""; Dom.modalContent_innerHTML := [];
     Dom.infoModalContainer_hidden := true; Dom.infoModal_hidden := true;
     Dom.body_style_overflow := ""; Dom.timers := [] |}.

Definition blank_page : Page :=
  {| results := blank_results; modal := blank_modal;
     areasOfSupportContainer_innerHTML := [];
     formatContainer_innerHTML := [];
     priceContainer_innerHTML := [];
     loadingIndicator_hidden := true |}.

Definition blank_inline_page : Inline.Page :=
  {| Inline.results := blank_results; Inline.modal := blank_modal;
     Inline.categoryContainer_innerHTML := [];
     Inline.statusContainer_innerHTML := [];
     Inline.techContainer_innerHTML := [] |}.

(** Checked category boxes of the inline page. *)
Definition select_mobile : Inline.Selection :=
  {| Inline.selectedCategories := ["Mobile App"];
     Inline.selectedStatuses := []; Inline.selectedTech := [] |}.

Definition select_mobile_web : Inline.Selection :=
  {| Inline.selectedCategories := ["Mobile App"; "Web Development"];
     Inline.selectedStatuses := []; Inline.selectedTech := [] |}.

Definition select_firebase : Inline.Selection :=
  {| Inline.selectedCategories := []; Inline.selectedStatuses := [];
     Inline.selectedTech := ["Firebase"] |}.

Definition select_firebase_mobile : Inline.Selection :=
  {| Inline.selectedCategories := ["Mobile App"]; Inline.selectedStatuses := [];
     Inline.selectedTech := ["Firebase"] |}.

Definition select_react_firebase : Inline.Selection :=
  {| Inline.selectedCategories := []; Inline.selectedStatuses := [];
     Inline.selectedTech := ["Firebase"; "React"] |}.

(** The first project of the inline dataset. *)
Definition project1 : Inline.Project :=
  {| Inline.id := 1; Inline.title := "E-commerce Platform";
     Inline.description := "A full-featured e-commerce platform with a custom CMS, product management, and a secure checkout process. Built for scalability and high traffic.";
     Inline.category := "Web Development"; Inline.status := "Completed";
     Inline.tech := ["React"; "Node.js"; "PostgreSQL"] |}.

(** The sixth project of the inline dataset. *)
Definition project6 : Inline.Project :=
  {| Inline.id := 6; Inline.title := "Fitness Tracker App";
     Inline.description := "A cross-platform mobile app that tracks user workouts, sets goals, and provides social sharing features.";
     Inline.category := "Mobile App"; Inline.status := "Completed";
     Inline.tech := ["React Native"; "GraphQL"] |}.

End Samples.

(** ** The loader's two outcomes, in the specification's words *)
Module LoaderSpec.
Import Fetched Dom.

(** "Publish an empty dataset and signal load failed with a human-readable
    reason": no record is held, and the page shows the error texts. *)
Definition load_failed (st : State) : Prop :=
  database st = []
  /\ resultsCount_textContent (results (page st)) = "Failed to load data."
  /\ noResultsMessage_hidden (results (page st)) = false
  /\ noResultsMessage_h3 (results (page st)) = "Error loading data"
  /\ noResultsMessage_p (results (page st)) = "Please try again later.".

(** "On success, publish the sequence as the current dataset": the records
    are held, all of them are counted as shown, and the texts of the
    no-results message are those of the markup. *)
Definition load_succeeded (markup : Page) (records : list Resource) (st : State)
  : Prop :=
  database st = records
  /\ resultsCount_textContent (results (page st))
     = "Showing " ++ JS.Number_toString (Z.of_nat (List.length records))
       ++ " of " ++ JS.Number_toString (Z.of_nat (List.length records))
       ++ " results"
  /\ resultsCount_textContent (results (page st)) <> "Failed to load data."
  /\ noResultsMessage_h3 (results (page st)) = noResultsMessage_h3 (results markup)
  /\ noResultsMessage_p (results (page st)) = noResultsMessage_p (results markup)
  /\ resultsGrid_innerHTML (results (page st)) = map renderCard records.

End LoaderSpec.

(** ** The [id] attribute [createCheckbox] gives a checkbox

    The two scripts that load [Database.json] differ here only.  On byte
    strings the class [[^a-zA-Z0-9]] is exact for every text: each byte of a
    character outside ASCII belongs to the class, as each of its code units
    does, and a run becomes one hyphen either way.  [\s] and [toLowerCase] are
    taken on ASCII (white space as in [JS.isWhiteSpace], letters A to Z). *)
Module CheckboxId.

(** [s.toLowerCase()], on the letters A to Z. *)
Definition toLowerCase_char (c : ascii) : ascii :=
  let n := N_of_ascii c in
  if ((65 <=? n) && (n <=? 90))%N then ascii_of_N (n + 32) else c.

Fixpoint toLowerCase (s : string) : string :=
  match s with
  | EmptyString => EmptyString
  | String c rest => String (toLowerCase_char c) (toLowerCase rest)
  end.

(** [s.replace(/C+/g, '-')] for a character class [C]: every maximal run of
    characters of the class becomes one hyphen.  [in_run] tells that the
    character before was of the class. *)
Fixpoint replace_runs (in_class : ascii -> bool) (in_run : bool) (s : string)
  : string :=
  match s with
  | EmptyString => EmptyString
  | String c rest =>
      if in_class c then
        if in_run then replace_runs in_class true rest
        else String "-" (replace_runs in_class true rest)
      else String c (replace_runs in_class false rest)
  end.

(** The class [[a-zA-Z0-9]]. *)
Definition is_alphanumeric (c : ascii) : bool :=
  let n := N_of_ascii c in
  (((48 <=? n) && (n <=? 57)) || ((65 <=? n) && (n <=? 90))
   || ((97 <=? n) && (n <=? 122)))%N.

(** The second script of [Logic.js]:
    [`${name}-${value.replace(/\s+/g, '-').toLowerCase()}`]. *)
Definition sanitize_whitespace (value : string) : string :=
  toLowerCase (replace_runs JS.isWhiteSpace false value).

Definition id_whitespace (name value : string) : string :=
  name ++ "-" ++ sanitize_whitespace value.

(** The stand-alone script:
    [`${name}-${value.replace(/[^a-zA-Z0-9]+/g, '-').toLowerCase()}`]. *)
Definition sanitize_alphanumeric (value : string) : string :=
  toLowerCase (replace_runs (fun c => negb (is_alphanumeric c)) false value).

Definition id_alphanumeric (name value : string) : string :=
  name ++ "-" ++ sanitize_alphanumeric value.

(** Characters an id made by the stand-alone script consists of. *)
Definition is_id_char (c : ascii) : bool :=
  let n := N_of_ascii c in
  (((48 <=? n) && (n <=? 57)) || ((97 <=? n) && (n <=? 122)) || (n =? 45))%N.

Definition is_upper (c : ascii) : bool :=
  let n := N_of_ascii c in ((65 <=? n) && (n <=? 90))%N.

(** The string has no two hyphens side by side. *)
Fixpoint no_double_hyphen (s : string) : bool :=
  match s with
  | String a ((String b _) as rest) =>
      negb (Ascii.eqb a "-" && Ascii.eqb b "-") && no_double_hyphen rest
  | _ => true
  end.

Definition starts_with_hyphen (s : string) : bool :=
  match s with
  | String c _ => Ascii.eqb c "-"
  | EmptyString => false
  end.

Fixpoint forall_chars (p : ascii -> bool) (s : string) : bool :=
  match s with
  | EmptyString => true
  | String c rest => p c && forall_chars p rest
  end.

End CheckboxId.

(** ** Selections, as the properties below speak of them *)
Module Selections.
Import Fetched FetchedGroups.


(** The boxes checked in [s1] together with those checked in [s2]. *)
Definition both (s1 s2 : Selection) : Selection :=
  {| selectedAreasOfSupport :=
       selectedAreasOfSupport s1 ++ selectedAreasOfSupport s2;
     selectedFormats := selectedFormats s1 ++ selectedFormats s2;
     selectedPrices := selectedPrices s1 ++ selectedPrices s2 |}.

(** Every value checked in [s] is checked in [s']. *)
Definition included (s s' : Selection) : Prop :=
  forall g v, v ∈ selection_of g s -> v ∈ selection_of g s'.

(** The same values are checked, whatever their order. *)
Definition same_values (s s' : Selection) : Prop :=
  forall g v, v ∈ selection_of g s <-> v ∈ selection_of g s'.

(** The inline script: only the value [v] of group [g] is checked. *)
Definition inline_single (g : InlineGroups.Group) (v : string) : Inline.Selection :=
  {| Inline.selectedCategories :=
       match g with InlineGroups.Category => [v] | _ => [] end;
     Inline.selectedStatuses :=
       match g with InlineGroups.Status => [v] | _ => [] end;
     Inline.selectedTech := match g with InlineGroups.Tech => [v] | _ => [] end |}.

(** The values a record of the inline dataset has for a group. *)
Definition inline_values (g : InlineGroups.Group) (item : Inline.Project)
  : list string :=
  match g with
  | InlineGroups.Category => [Inline.category item]
  | InlineGroups.Status => [Inline.status item]
  | InlineGroups.Tech => Inline.tech item
  end.

(** The checkbox values the inline script creates for a group. *)
Definition inline_vocabulary (g : InlineGroups.Group) (db : list Inline.Project)
  : list string :=
  match g with
  | InlineGroups.Category => Inline.categories db
  | InlineGroups.Status => Inline.statuses db
  | InlineGroups.Tech => Inline.allTech db
  end.

End Selections.

(** ** More sample data *)
Module Examples.
Import Fetched.

(** A record with every kind of field: a filled array, an empty array, a
    missing array, a link and an empty note. *)
Definition counselling : Resource :=
  {| Index := JS.Number 7; Name := "Counselling"; Summary := "Someone to talk to";
     Areas_of_support := Some ["Anxiety"; "Sleep"]; Format := Some [];
     Price := None; Link := Some "https://example.org/talk";
     Further_info := Some "" |}.

(** A record whose identifier is a string, and one without identifier. *)
Definition lettered : Resource :=
  {| Index := JS.Str "a-12"; Name := "Lettered"; Summary := "";
     Areas_of_support := None; Format := Some ["Online"]; Price := Some ["Free"];
     Link := None; Further_info := None |}.

Definition nameless : Resource :=
  {| Index := JS.Undefined; Name := "No identifier"; Summary := "";
     Areas_of_support := None; Format := None; Price := None;
     Link := None; Further_info := None |}.

Definition catalogue : list Resource := [counselling; lettered; nameless].

(** The script's state with [records] loaded into a blank page. *)
Definition state_of (records : list Resource) : State :=
  fetchDatabase (initial Samples.blank_page) (Response true 200 (Json records)).

End Examples.

(** ** Outcomes of the awaited calls *)
Module Outcomes.
Import Fetched.

(** The awaited calls did not deliver the records: [fetch] rejected, the
    response was not [ok], or its body did not parse. *)
Definition failed (outcome : FetchResult) : Prop :=
  match outcome with
  | Response true _ (Json _) => False
  | _ => True
  end.

End Outcomes.

(** ** The page in use: listeners, timers and [closeModal] *)
Module Session.
Import Dom Fetched.

(** The callbacks the scripts hand to [setTimeout]. *)
Inductive Callback :=
| ShowPanel        (** [() => infoModal.classList.remove('hidden')] *)
| HideContainer    (** [() => { infoModalContainer.classList.add('hidden');
                       document.body.style.overflow = ''; }] *)
| RunFilterData.   (** [filterData] *)

Definition of_task (t : Task) : Callback :=
  match t with
  | ShowModalPanel => ShowPanel
  end.

(** A timer waiting to fire at time [due] (milliseconds). *)
Record Timer := {
  due : nat;
  callback : Callback
}.

(** The browser around the script: the time, the script's state, the
    checked values of [#filter-form], and the timers not yet fired, earliest
    first and, for equal times, in the order they were set. *)
Record Browser := {
  clock : nat;
  script : State;
  form : Selection;
  pending : list Timer
}.

(** [closeModal()]: the state it leaves and the timers it sets. *)
Definition closeModal (st : State) : State * list (nat * Callback) :=
  (with_modal st
     {| modalTitle_textContent := modalTitle_textContent (modal (page st));
        modalContent_innerHTML := modalContent_innerHTML (modal (page st));
        infoModalContainer_hidden := infoModalContainer_hidden (modal (page st));
        infoModal_hidden := true;
        body_style_overflow := body_style_overflow (modal (page st));
        timers := timers (modal (page st)) |},
   [(300%nat, HideContainer)]).

(** The timers a call of [openModal] has added to the modal's list. *)
Definition scheduled_by (before after : State) : list (nat * Callback) :=
  map (fun dt => (fst dt, of_task (snd dt)))
      (drop (List.length (timers (modal (page before))))
            (timers (modal (page after)))).

(** A timer joins the queue behind every timer due no later than it. *)
Fixpoint enqueue (t : Timer) (q : list Timer) : list Timer :=
  match q with
  | [] => [t]
  | t' :: q' => if (due t' <=? due t)%nat then t' :: enqueue t q' else t :: q
  end.

(** [setTimeout(cb, delay)] for each timer of the list, in order. *)
Definition setTimeouts (b : Browser) (new : list (nat * Callback)) : Browser :=
  {| clock := clock b;
     script := script b;
     form := form b;
     pending :=
       fold_left
         (fun q dc => enqueue {| due := clock b + fst dc; callback := snd dc |} q)
         new (pending b) |}.

Definition with_script (b : Browser) (st : State) : Browser :=
  {| clock := clock b; script := st; form := form b; pending := pending b |}.

(** Running one callback. *)
Definition run_callback (cb : Callback) (st : State) (checked : Selection) : State :=
  match cb with
  | ShowPanel =>
      with_modal st
        {| modalTitle_textContent := modalTitle_textContent (modal (page st));
           modalContent_innerHTML := modalContent_innerHTML (modal (page st));
           infoModalContainer_hidden := infoModalContainer_hidden (modal (page st));
           infoModal_hidden := false;
           body_style_overflow := body_style_overflow (modal (page st));
           timers := timers (modal (page st)) |}
  | HideContainer =>
      with_modal st
        {| modalTitle_textContent := modalTitle_textContent (modal (page st));
           modalContent_innerHTML := modalContent_innerHTML (modal (page st));
           infoModalContainer_hidden := true;
           infoModal_hidden := infoModal_hidden (modal (page st));
           body_style_overflow := "";
           timers := timers (modal (page st)) |}
  | RunFilterData => filterData st checked
  end.

(** The timers due by [target] fire in queue order; the others stay.  (No
    callback sets a timer, so one pass over the queue is enough.) *)
Fixpoint run_due (target : nat) (q : list Timer) (st : State) (checked : Selection)
  : State * list Timer :=
  match q with
  | [] => (st, [])
  | t :: q' =>
      if (due t <=? target)%nat
      then run_due target q' (run_callback (callback t) st checked) checked
      else let (st', rest) := run_due target q' st checked in (st', t :: rest)
  end.

(** What happens to the page once the dataset has been loaded. *)
Inductive Event :=
| Change (checked : Selection)  (** a box is toggled; the form then holds
                                    [checked] and its [change] event fires *)
| Reset                         (** the form is reset *)
| ClickCard (i : nat)           (** a click inside the [i]-th card of the grid *)
| ClickGridGap                  (** a click in the grid outside every card *)
| ClickCloseButton
| ClickOverlay
| KeyDown (key : string)
| Wait (ms : nat).              (** time passes *)

(** [openModal(itemId)] with its timer set. *)
Definition open (b : Browser) (itemId : JS.Value) : Browser :=
  let st' := openModal (script b) itemId in
  setTimeouts (with_script b st') (scheduled_by (script b) st').

(** [closeModal()] with its timer set. *)
Definition close (b : Browser) : Browser :=
  let (st', new) := closeModal (script b) in
  setTimeouts (with_script b st') new.

(** The listeners registered by the script. *)
Definition handle (b : Browser) (e : Event) : Browser :=
  match e with
  | Change checked =>
      {| clock := clock b;
         script := filterData (script b) checked;
         form := checked;
         pending := pending b |}
  | Reset =>
      (* [setTimeout(filterData, 0)], then the form's own reset unchecks the
         boxes ([createCheckbox] creates them unchecked) *)
      let b' := setTimeouts b [(0%nat, RunFilterData)] in
      {| clock := clock b';
         script := script b';
         form := FetchedGroups.no_selection;
         pending := pending b' |}
  | ClickCard i =>
      match resultsGrid_innerHTML (results (page (script b))) !! i with
      | Some card => open b (JS.Str (data_id card))
      | None => b
      end
  | ClickGridGap => b
  | ClickCloseButton => close b
  | ClickOverlay => close b
  | KeyDown key =>
      if (String.eqb key "Escape"
          && negb (infoModalContainer_hidden (modal (page (script b)))))%bool
      then close b
      else b
  | Wait ms =>
      let target := (clock b + ms)%nat in
      let (st', rest) := run_due target (pending b) (script b) (form b) in
      {| clock := target; script := st'; form := form b; pending := rest |}
  end.

Definition run (events : list Event) (b : Browser) : Browser :=
  fold_left handle events b.

(** The browser when [fetchDatabase] has completed on [outcome]. *)
Definition loaded (markup : Page) (outcome : FetchResult) : Browser :=
  {| clock := 0;
     script := fetchDatabase (initial markup) outcome;
     form := FetchedGroups.no_selection;
     pending := [] |}.

(** The queue is in firing order: no timer stands behind one due later. *)
Definition in_firing_order (q : list Timer) : Prop :=
  StronglySorted (fun t t' => (due t <= due t')%nat) q.

(** The three ways the user closes the modal. *)
Definition closes (e : Event) : Prop :=
  e = ClickCloseButton \/ e = ClickOverlay \/ e = KeyDown "Escape".

(** No run of [filterData] is waiting. *)
Definition no_filter_pending (q : list Timer) : Prop :=
  forall t, In t q -> callback t <> RunFilterData.

(** The result area shows the records of the dataset that match
    [checked]. *)
Definition shows (st : State) (checked : Selection) : Prop :=
  let items := filteredItems (database st) checked in
  resultsGrid_innerHTML (results (page st)) = map renderCard items
  /\ resultsCount_textContent (results (page st))
     = "Showing " ++ JS.Number_toString (Z.of_nat (List.length items))
       ++ " of " ++ JS.Number_toString (Z.of_nat (List.length (database st)))
       ++ " results"
  /\ resultsGrid_hidden (results (page st)) = negb (0 <? List.length items)%nat
  /\ noResultsMessage_hidden (results (page st)) = (0 <? List.length items)%nat.

End Session.

(** * Properties *)

(** ** Facts about the built-ins *)
Section BuiltinFacts.

Lemma includes_elem_of (arr : list string) (v : string) :
  JS.includes arr v = true <-> v ∈ arr.
Proof.
  unfold JS.includes. rewrite existsb_exists. split.
  - intros (x & Hin & Heq). apply String.eqb_eq in Heq. subst x.
    now apply list_elem_of_In.
  - intros Hin. exists v. split; [now apply list_elem_of_In | apply String.eqb_refl].
Qed.

Lemma includes_false_iff (arr : list string) (v : string) :
  JS.includes arr v = false <-> v ∉ arr.
Proof.
  rewrite <- includes_elem_of. destruct (JS.includes arr v); split; congruence.
Qed.

Lemma every_true_iff {A : Type} (p : A -> bool) (arr : list A) :
  JS.every p arr = true <-> forall x, x ∈ arr -> p x = true.
Proof.
  unfold JS.every. rewrite forallb_forall.
  split; intros H x Hx; apply H; now apply list_elem_of_In.
Qed.

Lemma length_eqb_0 {A : Type} (l : list A) :
  (List.length l =? 0)%nat = true <-> l = [].
Proof.
  destruct l; simpl; split; intros H; congruence.
Qed.

(** A call of [every] that never throws agrees with the pure [every]. *)
Lemma every_throwing_Normal (arr : list string) (selected : list string) :
  JS.every_throwing (fun v => JS.member_includes (Some arr) v) selected
  = JS.Normal (JS.every (fun v => JS.includes arr v) selected).
Proof.
  induction selected as [|v rest IH]; simpl; [reflexivity|].
  destruct (JS.includes arr v); simpl; [exact IH | reflexivity].
Qed.

(** [new Set] keeps exactly the values of its argument, once each. *)
Lemma fold_Set_add_elem_of (arr seen : list string) (v : string) :
  v ∈ fold_left JS.Set_add arr seen <-> v ∈ seen \/ v ∈ arr.
Proof.
  revert seen. induction arr as [|x arr IH]; intros seen; simpl.
  - rewrite elem_of_nil. tauto.
  - rewrite IH, elem_of_cons. unfold JS.Set_add.
    destruct (JS.includes seen x) eqn:Hx.
    + apply includes_elem_of in Hx. split; [tauto|].
      intros [H | [-> | H]]; tauto.
    + rewrite elem_of_app, list_elem_of_singleton. tauto.
Qed.

Lemma Set_from_elem_of (arr : list string) (v : string) :
  v ∈ JS.Set_from arr <-> v ∈ arr.
Proof.
  unfold JS.Set_from. rewrite fold_Set_add_elem_of, elem_of_nil. tauto.
Qed.

Lemma fold_Set_add_NoDup (arr seen : list string) :
  NoDup seen -> NoDup (fold_left JS.Set_add arr seen).
Proof.
  revert seen. induction arr as [|x arr IH]; intros seen Hnd; simpl; [exact Hnd|].
  apply IH. unfold JS.Set_add.
  destruct (JS.includes seen x) eqn:Hx; [exact Hnd|].
  apply includes_false_iff in Hx.
  apply NoDup_app. split; [exact Hnd|]. split.
  - intros y Hy Hy'. apply list_elem_of_singleton in Hy'. now subst y.
  - apply NoDup_singleton.
Qed.

Lemma Set_from_NoDup (arr : list string) : NoDup (JS.Set_from arr).
Proof. apply fold_Set_add_NoDup, NoDup_nil_2. Qed.

(** [new Set] keeps values at their first occurrence, in order. *)
Lemma fold_Set_add_prefix (arr seen : list string) :
  exists added, fold_left JS.Set_add arr seen = (seen ++ added)%list.
Proof.
  revert seen. induction arr as [|x arr IH]; intros seen; simpl.
  - exists []. now rewrite app_nil_r.
  - destruct (IH (JS.Set_add seen x)) as [added Hadded]. rewrite Hadded.
    unfold JS.Set_add. destruct (JS.includes seen x).
    + now exists added.
    + exists ([x] ++ added)%list. now rewrite app_assoc.
Qed.

(** The order [sort] compares with. *)
Lemma compare_Lt_trans (x y z : string) :
  String.compare x y = Lt -> String.compare y z = Lt -> String.compare x z = Lt.
Proof.
  intros Hxy Hyz.
  apply OrderedTypeEx.String_as_OT.cmp_lt.
  apply OrderedTypeEx.String_as_OT.lt_trans with y;
    now apply OrderedTypeEx.String_as_OT.cmp_lt.
Qed.

Lemma compare_refl (x : string) : String.compare x x = Eq.
Proof.
  destruct (String.compare x x) eqn:H; [reflexivity| |].
  - pose proof (String.compare_antisym x x) as Ha. rewrite H in Ha. discriminate.
  - pose proof (String.compare_antisym x x) as Ha. rewrite H in Ha. discriminate.
Qed.

Lemma leb_iff (x y : string) :
  String.leb x y = true <-> String.compare x y = Lt \/ x = y.
Proof.
  unfold String.leb. destruct (String.compare x y) eqn:H.
  - apply String.compare_eq_iff in H. tauto.
  - tauto.
  - split; [discriminate|]. intros [Hc | ->]; [discriminate|].
    rewrite compare_refl in H. discriminate.
Qed.

Lemma ltb_iff (x y : string) : Spec.str_lt x y <-> String.compare x y = Lt.
Proof.
  unfold Spec.str_lt, String.ltb. destruct (String.compare x y); split; congruence.
Qed.

Global Instance SortCompare_le_trans : Transitive JS.SortCompare_le.
Proof.
  intros x y z. unfold JS.SortCompare_le. rewrite !leb_iff.
  intros [Hxy | ->] [Hyz | ->]; auto.
  left. eapply compare_Lt_trans; eassumption.
Qed.

Global Instance SortCompare_le_total : Total JS.SortCompare_le.
Proof. intros x y. apply String.leb_total. Qed.

Global Instance SortCompare_le_antisym : AntiSymm (=) JS.SortCompare_le.
Proof. intros x y. apply String.leb_antisym. Qed.

Global Instance str_lt_trans : Transitive Spec.str_lt.
Proof.
  intros x y z. rewrite !ltb_iff. apply compare_Lt_trans.
Qed.

Lemma str_lt_irrefl (x : string) : ~ Spec.str_lt x x.
Proof. rewrite ltb_iff, compare_refl. discriminate. Qed.

Lemma str_lt_le (x y : string) : Spec.str_lt x y -> JS.SortCompare_le x y.
Proof. rewrite ltb_iff. unfold JS.SortCompare_le. rewrite leb_iff. tauto. Qed.

Lemma le_neq_lt (x y : string) : JS.SortCompare_le x y -> x <> y -> Spec.str_lt x y.
Proof.
  unfold JS.SortCompare_le. rewrite leb_iff, ltb_iff. intros [H | H] Hne; tauto.
Qed.

(** [sort] returns the ascending rearrangement of its argument. *)
Lemma sort_Permutation (arr : list string) : JS.sort arr ≡ₚ arr.
Proof. apply merge_sort_Permutation. Qed.

Lemma sort_StronglySorted (arr : list string) :
  StronglySorted JS.SortCompare_le (JS.sort arr).
Proof. apply StronglySorted_merge_sort; apply _. Qed.

Lemma sort_elem_of (arr : list string) (v : string) : v ∈ JS.sort arr <-> v ∈ arr.
Proof. now rewrite sort_Permutation. Qed.

(** Any ascending rearrangement of [arr] is the one [sort] returns. *)
Lemma sort_unique (arr l : list string) :
  l ≡ₚ arr -> StronglySorted JS.SortCompare_le l -> l = JS.sort arr.
Proof.
  intros Hperm Hsorted.
  apply (StronglySorted_unique JS.SortCompare_le); [exact Hsorted | |].
  - apply sort_StronglySorted.
  - now rewrite sort_Permutation.
Qed.

(** Without repeated values, ascending is strictly ascending. *)
Lemma StronglySorted_le_NoDup_lt (l : list string) :
  StronglySorted JS.SortCompare_le l -> NoDup l -> StronglySorted Spec.str_lt l.
Proof.
  induction 1 as [|x l Hs IH Hall]; intros Hnd; constructor.
  - apply IH. now apply NoDup_cons in Hnd.
  - apply NoDup_cons in Hnd as [Hx _].
    rewrite Forall_forall in Hall |- *. intros y Hy.
    apply le_neq_lt; [now apply Hall|]. intros ->. apply Hx.
    now apply list_elem_of_In.
Qed.

Lemma StronglySorted_lt_NoDup (l : list string) :
  StronglySorted Spec.str_lt l -> NoDup l.
Proof.
  induction 1 as [|x l Hs IH Hall]; constructor; [|exact IH].
  intros Hx. rewrite Forall_forall in Hall.
  apply (str_lt_irrefl x). now apply Hall.
Qed.

Lemma StronglySorted_lt_le (l : list string) :
  StronglySorted Spec.str_lt l -> StronglySorted JS.SortCompare_le l.
Proof.
  induction 1 as [|x l Hs IH Hall]; constructor; [exact IH|].
  eapply Forall_impl; [exact Hall|]. intros y. apply str_lt_le.
Qed.

(** A strictly ascending list is determined by its set of values. *)
Lemma StronglySorted_lt_unique (l1 l2 : list string) :
  StronglySorted Spec.str_lt l1 -> StronglySorted Spec.str_lt l2 ->
  (forall v, v ∈ l1 <-> v ∈ l2) -> l1 = l2.
Proof.
  intros H1 H2 Hmem.
  apply (StronglySorted_unique JS.SortCompare_le).
  - now apply StronglySorted_lt_le.
  - now apply StronglySorted_lt_le.
  - apply NoDup_Permutation; auto using StronglySorted_lt_NoDup.
Qed.

End BuiltinFacts.

(** ** The filter predicate *)
Section FilterFacts.

Lemma groupMatch_contains_every (selected : list string) (field : option (list string)) :
  Fetched.groupMatch selected field = true
  <-> Spec.contains_every (JS.or_empty field) selected.
Proof.
  unfold Fetched.groupMatch, Spec.contains_every.
  rewrite orb_true_iff, length_eqb_0, every_true_iff. split.
  - intros [-> | H] v Hv.
    + now apply elem_of_nil in Hv.
    + now apply includes_elem_of, H.
  - intros H. right. intros v Hv. now apply includes_elem_of, H.
Qed.

Lemma Fetched_Matches_groups (sel : Fetched.Selection) (item : Fetched.Resource) :
  Fetched.Matches sel item = true
  <-> Spec.no_group_violated (FetchedGroups.groups sel item).
Proof.
  unfold Fetched.Matches, Spec.no_group_violated, FetchedGroups.groups. simpl.
  rewrite !Forall_cons, Forall_nil. simpl.
  rewrite !andb_true_iff, !groupMatch_contains_every. tauto.
Qed.

Lemma scalar_group_iff (selected : list string) (value : string) :
  (List.length selected =? 0)%nat || JS.includes selected value = true
  <-> selected = [] \/ value ∈ selected.
Proof. now rewrite orb_true_iff, length_eqb_0, includes_elem_of. Qed.

Lemma array_group_iff (selected field : list string) :
  (List.length selected =? 0)%nat
  || JS.every (fun t => JS.includes field t) selected = true
  <-> Spec.contains_every field selected.
Proof. apply (groupMatch_contains_every selected (Some field)). Qed.

Lemma Inline_Matches_groups (sel : Inline.Selection) (item : Inline.Project) :
  Inline.Matches sel item = true
  <-> Spec.contains_every (Inline.tech item) (Inline.selectedTech sel)
      /\ (Inline.selectedCategories sel = []
          \/ Inline.category item ∈ Inline.selectedCategories sel)
      /\ (Inline.selectedStatuses sel = []
          \/ Inline.status item ∈ Inline.selectedStatuses sel).
Proof.
  unfold Inline.Matches. cbv zeta.
  rewrite !andb_true_iff, !scalar_group_iff, array_group_iff. tauto.
Qed.

Lemma adds_value_elem_of (v : string) (shorter longer : list string) :
  Spec.adds_value v shorter longer -> forall x, x ∈ shorter -> x ∈ longer.
Proof.
  intros (before & after & -> & ->) x.
  rewrite !elem_of_app, elem_of_cons. tauto.
Qed.

Lemma contains_every_antitone (field s s' : list string) :
  (forall x, x ∈ s -> x ∈ s') ->
  Spec.contains_every field s' -> Spec.contains_every field s.
Proof. unfold Spec.contains_every. auto. Qed.

(** Every group of the fetched dataset narrows as its selection grows. *)
Lemma Fetched_Matches_antitone (sel sel' : Fetched.Selection) (item : Fetched.Resource) :
  (forall g x, x ∈ FetchedGroups.selection_of g sel ->
               x ∈ FetchedGroups.selection_of g sel') ->
  Fetched.Matches sel' item = true -> Fetched.Matches sel item = true.
Proof.
  intros Hsub. rewrite !Fetched_Matches_groups.
  unfold Spec.no_group_violated, FetchedGroups.groups. simpl.
  rewrite !Forall_cons, !Forall_nil. simpl.
  intros (Ha & Hf & Hp & _).
  repeat split.
  - eapply contains_every_antitone; [apply (Hsub FetchedGroups.AreasOfSupport)|exact Ha].
  - eapply contains_every_antitone; [apply (Hsub FetchedGroups.FormatGroup)|exact Hf].
  - eapply contains_every_antitone; [apply (Hsub FetchedGroups.PriceGroup)|exact Hp].
Qed.

Lemma Fetched_extended_subset (g : FetchedGroups.Group) (v : string)
  (sel sel' : Fetched.Selection) :
  FetchedGroups.extended g v sel sel' ->
  forall g' x, x ∈ FetchedGroups.selection_of g' sel ->
               x ∈ FetchedGroups.selection_of g' sel'.
Proof.
  intros [Hadd Hrest] g' x Hx.
  destruct (decide (g' = g)) as [-> | Hne].
  - eapply adds_value_elem_of; eassumption.
  - now rewrite (Hrest g' Hne).
Qed.

Lemma false_preserved (b b' : bool) : (b' = true -> b = true) -> b = false -> b' = false.
Proof. destruct b, b'; intuition congruence. Qed.

End FilterFacts.

(** ** C1 and C2: what [Matches] tests, and how it moves with the selection *)

(** C1, as the scripts have it.  In the scripts that load [Database.json]
    a record matches exactly when, for each of the three groups, the record's
    array (empty if absent) contains every selected value, so an empty
    selection constrains nothing and the groups are combined with AND.  In the
    script with the inline dataset the same holds for the array-valued group
    [tech], and the scalar groups [category] and [status] add one conjunct
    each: the group's selection is empty or includes the record's value. *)
Theorem Matches_characterised :
  (forall (sel : Fetched.Selection) (item : Fetched.Resource),
      Fetched.Matches sel item = true
      <-> Spec.no_group_violated (FetchedGroups.groups sel item))
  /\ (forall (sel : Inline.Selection) (item : Inline.Project),
      Inline.Matches sel item = true
      <-> Spec.no_group_violated [(Inline.tech item, Inline.selectedTech sel)]
          /\ forall g value,
               InlineGroups.scalar_of g item = Some value ->
               InlineGroups.selection_of g sel = []
               \/ value ∈ InlineGroups.selection_of g sel).
Proof.
  split.
  - apply Fetched_Matches_groups.
  - intros sel item. rewrite Inline_Matches_groups.
    unfold Spec.no_group_violated. rewrite Forall_cons, Forall_nil. simpl.
    split.
    + intros (Ht & Hc & Hs). split; [tauto|].
      intros g value Hg. destruct g; simpl in Hg; inversion Hg; subst; assumption.
    + intros ((Ht & _) & Hscalar). repeat split.
      * exact Ht.
      * apply (Hscalar InlineGroups.Category). reflexivity.
      * apply (Hscalar InlineGroups.Status). reflexivity.
Qed.

(** C1 as stated fails on the script with the inline dataset.  With only
    "Mobile App" checked, the first project (a "Web Development" one) is
    filtered out although its only array-valued group, [tech], is not
    violated; and with "Mobile App" and "Web Development" both checked it is
    kept although its category, read as a one-value array, does not contain
    every selected value. *)
Lemma Matches_scalar_groups_counterexample :
  In Samples.project1 Inline.database
  /\ ~ (Inline.Matches Samples.select_mobile Samples.project1 = true
        <-> Spec.no_group_violated
              [(Inline.tech Samples.project1,
                Inline.selectedTech Samples.select_mobile)])
  /\ ~ (Inline.Matches Samples.select_mobile_web Samples.project1 = true
        <-> Spec.no_group_violated
              [([Inline.category Samples.project1],
                Inline.selectedCategories Samples.select_mobile_web);
               ([Inline.status Samples.project1],
                Inline.selectedStatuses Samples.select_mobile_web);
               (Inline.tech Samples.project1,
                Inline.selectedTech Samples.select_mobile_web)]).
Proof.
  split; [left; reflexivity|]. split.
  - intros [_ H].
    assert (Hfalse : Inline.Matches Samples.select_mobile Samples.project1 = false)
      by reflexivity.
    rewrite H in Hfalse; [discriminate|].
    constructor; [|constructor]. intros v Hv. now apply elem_of_nil in Hv.
  - intros [H _].
    assert (Htrue : Inline.Matches Samples.select_mobile_web Samples.project1 = true)
      by reflexivity.
    apply H in Htrue. apply Forall_cons in Htrue as [Hcat _].
    specialize (Hcat "Mobile App"). simpl in Hcat.
    assert (Hin : "Mobile App" ∈ ["Web Development"]) by (apply Hcat; left).
    apply list_elem_of_singleton in Hin. discriminate.
Qed.

(** C2, as the scripts have it.  Adding a value to the selection of an
    array-valued group (any group of the scripts that load [Database.json],
    [tech] in the script with the inline dataset) never turns a non-match
    into a match.  For the scalar groups of the inline script this holds when
    the group's selection was empty; when it was not, adding a value never
    turns a match into a non-match. *)
Theorem Matches_selection_growth :
  (forall g v sel sel' (item : Fetched.Resource),
      FetchedGroups.extended g v sel sel' ->
      Fetched.Matches sel item = false -> Fetched.Matches sel' item = false)
  /\ (forall v sel sel' (item : Inline.Project),
      InlineGroups.extended InlineGroups.Tech v sel sel' ->
      Inline.Matches sel item = false -> Inline.Matches sel' item = false)
  /\ (forall g v sel sel' (item : Inline.Project),
      g <> InlineGroups.Tech ->
      InlineGroups.extended g v sel sel' ->
      InlineGroups.selection_of g sel = [] ->
      Inline.Matches sel item = false -> Inline.Matches sel' item = false)
  /\ (forall g v sel sel' (item : Inline.Project),
      g <> InlineGroups.Tech ->
      InlineGroups.extended g v sel sel' ->
      InlineGroups.selection_of g sel <> [] ->
      Inline.Matches sel item = true -> Inline.Matches sel' item = true).
Proof.
  split; [|split; [|split]].
  - intros g v sel sel' item Hext. apply false_preserved.
    apply Fetched_Matches_antitone. eapply Fetched_extended_subset. exact Hext.
  - intros v sel sel' item [Hadd Hrest]. apply false_preserved.
    rewrite !Inline_Matches_groups.
    pose proof (Hrest InlineGroups.Category ltac:(discriminate)) as Hc.
    pose proof (Hrest InlineGroups.Status ltac:(discriminate)) as Hs.
    simpl in Hadd, Hc, Hs. rewrite Hc, Hs.
    intros (Ht & Hcs). split; [|exact Hcs].
    eapply contains_every_antitone; [|exact Ht].
    eapply adds_value_elem_of. exact Hadd.
  - intros g v sel sel' item Hg [Hadd Hrest] Hempty. apply false_preserved.
    rewrite !Inline_Matches_groups.
    pose proof (Hrest InlineGroups.Tech (fun e => Hg (eq_sym e))) as Ht.
    simpl in Ht. rewrite Ht.
    destruct g; [| |congruence]; simpl in Hempty.
    + pose proof (Hrest InlineGroups.Status ltac:(discriminate)) as Hs.
      simpl in Hs. rewrite Hs, Hempty. tauto.
    + pose proof (Hrest InlineGroups.Category ltac:(discriminate)) as Hc.
      simpl in Hc. rewrite Hc, Hempty. tauto.
  - intros g v sel sel' item Hg [Hadd Hrest] Hnonempty.
    rewrite !Inline_Matches_groups.
    pose proof (Hrest InlineGroups.Tech (fun e => Hg (eq_sym e))) as Ht.
    simpl in Ht. rewrite Ht.
    pose proof (adds_value_elem_of _ _ _ Hadd) as Hsub.
    destruct g; [| |congruence]; simpl in Hnonempty, Hsub.
    + pose proof (Hrest InlineGroups.Status ltac:(discriminate)) as Hs.
      simpl in Hs. rewrite Hs.
      intros (H1 & [H2 | H2] & H3); [contradiction|]. auto.
    + pose proof (Hrest InlineGroups.Category ltac:(discriminate)) as Hc.
      simpl in Hc. rewrite Hc.
      intros (H1 & H2 & [H3 | H3]); [contradiction|]. auto.
Qed.

(** The statement applied to concrete selections: checking "B" after "A"
    keeps the scenario's second record, which lacks "A", out of the result;
    on the inline dataset, with "Firebase" checked the first project stays out
    when "React" is checked too and when a first category is checked, and
    the sixth project, shown for "Mobile App", stays in when a second
    category is checked. *)
Lemma Matches_selection_growth_witness :
  Fetched.Matches Samples.select_A_B Samples.record2 = false
  /\ Inline.Matches Samples.select_react_firebase Samples.project1 = false
  /\ Inline.Matches Samples.select_firebase_mobile Samples.project1 = false
  /\ nth_error Inline.database 5 = Some Samples.project6
  /\ Inline.Matches Samples.select_mobile_web Samples.project6 = true.
Proof.
  destruct Matches_selection_growth as (Hfetched & Htech & Hfirst & Hmore).
  split; [|split; [|split; [|split; [reflexivity|]]]].
  - apply (Hfetched FetchedGroups.FormatGroup "B" Samples.select_A).
    + split.
      * exists ["A"], []. split; reflexivity.
      * intros g' Hg'. destruct g'; [reflexivity | contradiction | reflexivity].
    + reflexivity.
  - apply (Htech "React" Samples.select_firebase).
    + split.
      * exists ["Firebase"], []. split; reflexivity.
      * intros g' Hg'. destruct g'; [reflexivity | reflexivity | contradiction].
    + reflexivity.
  - apply (Hfirst InlineGroups.Category "Mobile App" Samples.select_firebase).
    + discriminate.
    + split.
      * exists [], []. split; reflexivity.
      * intros g' Hg'. destruct g'; [contradiction | reflexivity | reflexivity].
    + reflexivity.
    + reflexivity.
  - apply (Hmore InlineGroups.Category "Web Development" Samples.select_mobile).
    + discriminate.
    + split.
      * exists ["Mobile App"], []. split; reflexivity.
      * intros g' Hg'. destruct g'; [contradiction | reflexivity | reflexivity].
    + discriminate.
    + reflexivity.
Defined.

(** C2 as stated fails on the script with the inline dataset: with
    "Mobile App" checked the first project is not shown, and checking
    "Web Development" as well brings it in. *)
Lemma Matches_growth_counterexample :
  In Samples.project1 Inline.database
  /\ InlineGroups.extended InlineGroups.Category "Web Development"
       Samples.select_mobile Samples.select_mobile_web
  /\ Inline.Matches Samples.select_mobile Samples.project1 = false
  /\ Inline.Matches Samples.select_mobile_web Samples.project1 = true
  /\ map Inline.id (Inline.filteredItems Inline.database Samples.select_mobile)
     = [2; 6]%Z
  /\ map Inline.id (Inline.filteredItems Inline.database Samples.select_mobile_web)
     = [1; 2; 4; 5; 6]%Z.
Proof.
  split; [left; reflexivity|]. split.
  - split.
    + exists ["Mobile App"], []. split; reflexivity.
    + intros g' Hg'. destruct g'; [contradiction | reflexivity | reflexivity].
  - repeat split; reflexivity.
Qed.

(** ** C3: a record without one of the array fields *)

Lemma groupMatch_eval_Normal (selected : list string) (field : option (list string)) :
  Fetched.groupMatch_eval selected field
  = JS.Normal (Fetched.groupMatch selected field).
Proof.
  unfold Fetched.groupMatch_eval, Fetched.groupMatch.
  destruct (List.length selected =? 0)%nat; [reflexivity|].
  apply every_throwing_Normal.
Qed.

(** The callback of [filter] never throws: each receiver of [includes] is
    [(item.F || [])]. *)
Lemma Matches_eval_Normal (sel : Fetched.Selection) (item : Fetched.Resource) :
  Fetched.Matches_eval sel item = JS.Normal (Fetched.Matches sel item).
Proof.
  unfold Fetched.Matches_eval. now rewrite !groupMatch_eval_Normal.
Qed.

(** What the guard is for: [includes] called on the missing property itself
    throws as soon as one value is selected.  (The inline script calls
    [item.tech.includes] without the guard; every record of its dataset has
    [tech].) *)
Lemma unguarded_includes_throws (v : string) (rest : list string) :
  exists message,
    JS.every_throwing (fun x => JS.member_includes None x) (v :: rest)
    = JS.TypeError message.
Proof. eexists. reflexivity. Qed.

Lemma groupMatch_missing_field (selected : list string) :
  Fetched.groupMatch selected None = true -> selected = [].
Proof.
  rewrite groupMatch_contains_every. intros H.
  destruct selected as [|v rest]; [reflexivity|].
  specialize (H v (list_elem_of_here v rest)). now apply elem_of_nil in H.
Qed.

(** C3.  On a record that lacks the field of a group, the filter callback
    returns normally, returns what it returns on the same record with that
    field set to the empty array, and can return [true] only when nothing is
    selected in that group. *)
Theorem Matches_missing_field (sel : Fetched.Selection) (item : Fetched.Resource)
  (g : FetchedGroups.Group) :
  FetchedGroups.field_of g item = None ->
  Fetched.Matches_eval sel item = JS.Normal (Fetched.Matches sel item)
  /\ Fetched.Matches sel item
     = Fetched.Matches sel (FetchedGroups.set_field g (Some []) item)
  /\ (Fetched.Matches sel item = true -> FetchedGroups.selection_of g sel = []).
Proof.
  intros Hmissing. split; [apply Matches_eval_Normal|]. split.
  - unfold Fetched.Matches. destruct g; simpl in *; rewrite Hmissing; reflexivity.
  - unfold Fetched.Matches. cbv zeta. rewrite !andb_true_iff.
    destruct g; simpl in *; rewrite Hmissing;
      intros ((Ha & Hf) & Hp); now apply groupMatch_missing_field.
Qed.

(** The statement at a record with no [Format] and the selection "A". *)
Lemma Matches_missing_field_witness :
  Fetched.Matches_eval Samples.select_A Samples.twin_a = JS.Normal false
  /\ Fetched.Matches Samples.select_A
       (FetchedGroups.set_field FetchedGroups.FormatGroup (Some []) Samples.twin_a)
     = false.
Proof.
  destruct (Matches_missing_field Samples.select_A Samples.twin_a
              FetchedGroups.FormatGroup eq_refl) as (Heval & Hsame & _).
  split.
  - rewrite Heval. reflexivity.
  - rewrite <- Hsame. reflexivity.
Defined.

(** ** C5 and C6: the filtered sequence *)

Lemma filter_sublist {A : Type} (p : A -> bool) (l : list A) :
  sublist (List.filter p l) l.
Proof.
  induction l as [|x l IH]; simpl; [constructor|].
  destruct (p x); now constructor.
Qed.

Lemma filter_all {A : Type} (p : A -> bool) (l : list A) :
  (forall x, p x = true) -> List.filter p l = l.
Proof.
  intros Hp. induction l as [|x l IH]; simpl; [reflexivity|].
  now rewrite Hp, IH.
Qed.

(** Two elements of a subsequence stand in the same order in the whole
    sequence. *)
Lemma sublist_keeps_order {A : Type} (l1 l2 : list A) :
  sublist l1 l2 -> Spec.same_relative_order l1 l2.
Proof.
  unfold Spec.same_relative_order.
  induction 1 as [|x l1 l2 Hsub IH|x l1 l2 Hsub IH]; intros i j a b Hij Ha Hb.
  - now rewrite lookup_nil in Ha.
  - destruct j as [|j]; [lia|]. simpl in Hb. destruct i as [|i].
    + simpl in Ha. injection Ha as ->.
      assert (Hin : b ∈ l2).
      { eapply elem_of_sublist; [|exact Hsub]. eapply list_elem_of_lookup_2, Hb. }
      apply list_elem_of_lookup in Hin as [k Hk].
      exists 0%nat, (S k). repeat split; [lia | exact Hk].
    + simpl in Ha.
      destruct (IH i j a b ltac:(lia) Ha Hb) as (i' & j' & Hlt & Ha' & Hb').
      exists (S i'), (S j'). repeat split; [lia | exact Ha' | exact Hb'].
  - destruct (IH i j a b Hij Ha Hb) as (i' & j' & Hlt & Ha' & Hb').
    exists (S i'), (S j'). repeat split; [lia | exact Ha' | exact Hb'].
Qed.

(** C5.  The filtered sequence is a subsequence of the dataset: it is
    obtained by dropping records, so each of its records is a record of the
    dataset (one that matches) and any two of them stand in the order they
    have in the dataset; the grid shows the cards of exactly that sequence. *)
Theorem filteredItems_subsequence :
  (forall (db : list Fetched.Resource) (sel : Fetched.Selection),
      sublist (Fetched.filteredItems db sel) db
      /\ (forall item, In item (Fetched.filteredItems db sel)
                       <-> In item db /\ Fetched.Matches sel item = true)
      /\ Spec.same_relative_order (Fetched.filteredItems db sel) db)
  /\ (forall (db : list Inline.Project) (sel : Inline.Selection),
      sublist (Inline.filteredItems db sel) db
      /\ (forall item, In item (Inline.filteredItems db sel)
                       <-> In item db /\ Inline.Matches sel item = true)
      /\ Spec.same_relative_order (Inline.filteredItems db sel) db)
  /\ (forall (st : Fetched.State) (sel : Fetched.Selection),
      Dom.resultsGrid_innerHTML
        (Fetched.results (Fetched.page (Fetched.filterData st sel)))
      = map Fetched.renderCard (Fetched.filteredItems (Fetched.database st) sel))
  /\ (forall db (pg : Inline.Page) (sel : Inline.Selection),
      Dom.resultsGrid_innerHTML (Inline.results (Inline.filterData db pg sel))
      = map Inline.renderCard (Inline.filteredItems db sel)).
Proof.
  split; [|split; [|split]].
  - intros db sel. split; [apply filter_sublist|]. split.
    + intros item. apply filter_In.
    + apply sublist_keeps_order, filter_sublist.
  - intros db sel. split; [apply filter_sublist|]. split.
    + intros item. apply filter_In.
    + apply sublist_keeps_order, filter_sublist.
  - intros st sel. unfold Fetched.filterData, Fetched.populateResults. simpl.
    now destruct (Fetched.filteredItems (Fetched.database st) sel).
  - intros db pg sel. unfold Inline.filterData, Inline.populateResults. simpl.
    now destruct (Inline.filteredItems db sel).
Qed.

(** C6.  With nothing selected in any group the filter keeps every record,
    in order. *)
Theorem filteredItems_no_selection :
  (forall db : list Fetched.Resource,
      Fetched.filteredItems db FetchedGroups.no_selection = db)
  /\ (forall db : list Inline.Project,
      Inline.filteredItems db InlineGroups.no_selection = db).
Proof.
  split; intros db; apply filter_all; intros item; reflexivity.
Qed.

(** ** C4: the vocabulary of a filter group *)

Lemma flatMap_elem_of {A : Type} (f : A -> list string) (arr : list A) (v : string) :
  v ∈ JS.flatMap f arr <-> exists item, item ∈ arr /\ v ∈ f item.
Proof.
  unfold JS.flatMap. rewrite list_elem_of_In, in_concat. split.
  - intros (l & Hl & Hv). apply in_map_iff in Hl as (item & <- & Hitem).
    exists item. split; now apply list_elem_of_In.
  - intros (item & Hitem & Hv). exists (f item). split.
    + apply in_map. now apply list_elem_of_In.
    + now apply list_elem_of_In.
Qed.

(** Deduplicating then sorting gives the vocabulary of the array's values. *)
Lemma sort_Set_from_vocabulary (arr : list string) :
  Spec.is_vocabulary_of (fun v => v ∈ arr) (JS.sort (JS.Set_from arr)).
Proof.
  split.
  - apply StronglySorted_le_NoDup_lt; [apply sort_StronglySorted|].
    rewrite sort_Permutation. apply Set_from_NoDup.
  - intros v. now rewrite sort_elem_of, Set_from_elem_of.
Qed.

Lemma is_vocabulary_of_unique (occur : string -> Prop) (V V' : list string) :
  Spec.is_vocabulary_of occur V -> Spec.is_vocabulary_of occur V' -> V = V'.
Proof.
  intros [Hs Hm] [Hs' Hm']. apply StronglySorted_lt_unique; auto.
  intros v. now rewrite Hm, Hm'.
Qed.

Lemma is_vocabulary_of_ext (occur occur' : string -> Prop) (V : list string) :
  (forall v, occur v <-> occur' v) ->
  Spec.is_vocabulary_of occur V -> Spec.is_vocabulary_of occur' V.
Proof.
  intros Hext [Hs Hm]. split; [exact Hs|]. intros v. now rewrite Hm.
Qed.

Lemma Fetched_vocabulary_spec (field : Fetched.Resource -> option (list string))
  (db : list Fetched.Resource) :
  Spec.is_vocabulary_of
    (fun v => exists item, item ∈ db /\ v ∈ JS.or_empty (field item))
    (Fetched.vocabulary field db).
Proof.
  unfold Fetched.vocabulary.
  eapply is_vocabulary_of_ext; [|apply sort_Set_from_vocabulary].
  intros v. apply flatMap_elem_of.
Qed.

Lemma Inline_allTech_spec (db : list Inline.Project) :
  Spec.is_vocabulary_of
    (fun v => exists item, item ∈ db /\ v ∈ Inline.tech item)
    (Inline.allTech db).
Proof.
  unfold Inline.allTech.
  eapply is_vocabulary_of_ext; [|apply sort_Set_from_vocabulary].
  intros v. apply flatMap_elem_of.
Qed.

(** C4.  For each array-valued field, the values [populateFilters] turns
    into checkboxes are the strictly ascending sequence of the values that
    occur in that field of some record (a record without the field
    contributes nothing): there is only one such sequence, it has no
    duplicates, and it is the same for every rearrangement of the dataset. *)
Theorem vocabulary_sorted_distinct :
  (forall (g : FetchedGroups.Group) (db : list Fetched.Resource),
      let occur v :=
        exists item, item ∈ db /\ v ∈ JS.or_empty (FetchedGroups.field_of g item) in
      let V := Fetched.vocabulary (FetchedGroups.field_of g) db in
      Spec.is_vocabulary_of occur V
      /\ NoDup V
      /\ (forall V', Spec.is_vocabulary_of occur V' -> V' = V)
      /\ (forall db', db' ≡ₚ db ->
            Fetched.vocabulary (FetchedGroups.field_of g) db' = V))
  /\ (forall (g : FetchedGroups.Group) (st : Fetched.State),
      map Dom.checkbox_value
        (FetchedGroups.container_of g (Fetched.page (Fetched.populateFilters st)))
      = Fetched.vocabulary (FetchedGroups.field_of g) (Fetched.database st))
  /\ (forall db : list Inline.Project,
      let occur v := exists item, item ∈ db /\ v ∈ Inline.tech item in
      let V := Inline.allTech db in
      Spec.is_vocabulary_of occur V
      /\ NoDup V
      /\ (forall V', Spec.is_vocabulary_of occur V' -> V' = V)
      /\ (forall db', db' ≡ₚ db -> Inline.allTech db' = V))
  /\ (forall (db : list Inline.Project) (pg : Inline.Page),
      map Dom.checkbox_value
        (Inline.techContainer_innerHTML (Inline.populateFilters db pg))
      = (map Dom.checkbox_value (Inline.techContainer_innerHTML pg)
         ++ Inline.allTech db)%list).
Proof.
  split; [|split; [|split]].
  - intros g db occur V.
    pose proof (Fetched_vocabulary_spec (FetchedGroups.field_of g) db) as HV.
    split; [exact HV|]. split; [|split].
    + apply StronglySorted_lt_NoDup, HV.
    + intros V' HV'. eapply is_vocabulary_of_unique; eassumption.
    + intros db' Hperm. eapply is_vocabulary_of_unique; [|exact HV].
      eapply is_vocabulary_of_ext; [|apply Fetched_vocabulary_spec].
      intros v. split; intros (item & Hitem & Hv); exists item; split; auto.
      * now rewrite <- Hperm.
      * now rewrite Hperm.
  - intros g st. destruct g; simpl; rewrite map_map; simpl; apply map_id.
  - intros db occur V.
    pose proof (Inline_allTech_spec db) as HV.
    split; [exact HV|]. split; [|split].
    + apply StronglySorted_lt_NoDup, HV.
    + intros V' HV'. eapply is_vocabulary_of_unique; eassumption.
    + intros db' Hperm. eapply is_vocabulary_of_unique; [|exact HV].
      eapply is_vocabulary_of_ext; [|apply Inline_allTech_spec].
      intros v. split; intros (item & Hitem & Hv); exists item; split; auto.
      * now rewrite <- Hperm.
      * now rewrite Hperm.
  - intros db pg. simpl. rewrite map_app, map_map. simpl. now rewrite map_id.
Qed.

(** The statement at the scenario dataset and at its reversal, and at the
    inline dataset. *)
Lemma vocabulary_sorted_distinct_witness :
  Fetched.vocabulary (FetchedGroups.field_of FetchedGroups.FormatGroup)
    [Samples.record2; Samples.record1] = ["A"; "B"]
  /\ Inline.allTech (rev Inline.database)
     = ["CSS"; "D3.js"; "Dialogflow"; "Firebase"; "GraphQL"; "HTML";
        "JavaScript"; "Kotlin"; "Node.js"; "PostgreSQL"; "Python"; "React";
        "React Native"; "SQL"; "Swift"; "Tableau"; "TensorFlow"].
Proof.
  destruct vocabulary_sorted_distinct as (Hfetched & _ & Hinline & _).
  split.
  - destruct (Hfetched FetchedGroups.FormatGroup Samples.dataset)
      as (_ & _ & _ & Hperm).
    rewrite (Hperm [Samples.record2; Samples.record1]).
    + vm_compute. reflexivity.
    + apply Permutation_swap.
  - destruct (Hinline Inline.database) as (_ & _ & _ & Hperm).
    rewrite (Hperm (rev Inline.database)).
    + vm_compute. reflexivity.
    + symmetry. apply Permutation_rev.
Defined.

(** ** Numbers and their decimal text *)
Section NumberText.

Lemma digit_not_whitespace (c : ascii) :
  Spec.is_decimal_digit c = true -> JS.isWhiteSpace c = false.
Proof.
  destruct c as [[] [] [] [] [] [] [] []]; vm_compute; congruence.
Qed.

Lemma digit_not_marker (c : ascii) :
  Spec.is_decimal_digit c = true ->
  JS.is_exponent_indicator c = false /\ JS.is_dot c = false
  /\ Ascii.eqb c "+" = false /\ Ascii.eqb c "-" = false
  /\ (Ascii.eqb c "x" || Ascii.eqb c "X")%bool = false
  /\ (Ascii.eqb c "o" || Ascii.eqb c "O")%bool = false
  /\ (Ascii.eqb c "b" || Ascii.eqb c "B")%bool = false.
Proof.
  destruct c as [[] [] [] [] [] [] [] []]; vm_compute; intuition congruence.
Qed.

Lemma string_of_uint_all_digits (d : Decimal.uint) :
  Spec.all_digits (NilEmpty.string_of_uint d) = true.
Proof. induction d; simpl; auto. Qed.

(** The text of an unsigned decimal: digits only, and they read back as
    the same number. *)
Lemma NilZero_string_of_uint_digits (d : Decimal.uint) :
  Spec.all_digits (NilZero.string_of_uint d) = true
  /\ JS.DecimalDigits (NilZero.string_of_uint d) = Some (N.of_uint d).
Proof.
  destruct d as [|u|u|u|u|u|u|u|u|u|u] eqn:Ed; [split; reflexivity|..];
    rewrite <- Ed;
    (assert (Hs : NilZero.string_of_uint d = NilEmpty.string_of_uint d)
       by (now rewrite Ed));
    rewrite Hs; clear Hs;
    (split; [apply string_of_uint_all_digits|]);
    unfold JS.DecimalDigits;
    (destruct (NilEmpty.string_of_uint d) eqn:Es; [now rewrite Ed in Es|]);
    now rewrite <- Es, NilEmpty.usu.
Qed.

Lemma split_at_digits (p : ascii -> bool) (s : string) :
  (forall c, Spec.is_decimal_digit c = true -> p c = false) ->
  Spec.all_digits s = true -> JS.split_at p s = (s, None).
Proof.
  intros Hp. induction s as [|c s IH]; simpl; [reflexivity|].
  intros H. apply andb_true_iff in H as [Hc Hs].
  now rewrite (Hp c Hc), (IH Hs).
Qed.

Lemma trimStart_no_whitespace (cs : list ascii) :
  Forall (fun c => JS.isWhiteSpace c = false) cs -> JS.trimStart cs = cs.
Proof.
  destruct 1 as [|c cs Hc _]; simpl; [reflexivity|]. now rewrite Hc.
Qed.

Lemma trim_no_whitespace (s : string) :
  Forall (fun c => JS.isWhiteSpace c = false) (list_ascii_of_string s) ->
  JS.trim s = s.
Proof.
  intros H. unfold JS.trim.
  rewrite (trimStart_no_whitespace _ H).
  rewrite trimStart_no_whitespace.
  - rewrite rev_involutive. apply string_of_list_ascii_of_string.
  - apply Forall_forall. intros c Hc. apply list_elem_of_In, in_rev in Hc.
    rewrite Forall_forall in H. apply H. now apply list_elem_of_In.
Qed.

Lemma all_digits_no_whitespace (s : string) :
  Spec.all_digits s = true ->
  Forall (fun c => JS.isWhiteSpace c = false) (list_ascii_of_string s).
Proof.
  induction s as [|c s IH]; simpl; [constructor|].
  intros H. apply andb_true_iff in H as [Hc Hs].
  constructor; [now apply digit_not_whitespace | now apply IH].
Qed.

(** A run of digits is an unsigned decimal literal with that value. *)
Lemma StrUnsignedDecimalLiteral_digits (s : string) (n : N) :
  Spec.all_digits s = true -> JS.DecimalDigits s = Some n ->
  JS.StrUnsignedDecimalLiteral s = Some (Z.of_N n).
Proof.
  intros Hs Hn. unfold JS.StrUnsignedDecimalLiteral.
  rewrite (split_at_digits JS.is_exponent_indicator s);
    [| intros c Hc; apply (digit_not_marker c Hc) | exact Hs].
  rewrite (split_at_digits JS.is_dot s);
    [| intros c Hc; apply (digit_not_marker c Hc) | exact Hs].
  destruct s as [|c rest]; [discriminate|].
  cbn [String.eqb negb].
  change (JS.optional_digits (String c rest))
    with (JS.DecimalDigits (String c rest)).
  rewrite Hn.
  change (JS.optional_digits EmptyString) with (Some 0%N).
  change (Z.of_nat (String.length EmptyString)) with 0%Z.
  change (0 <=? 0 - 0)%Z with true. cbv iota.
  f_equal. rewrite Z.sub_diag, Z.pow_0_r. change (Z.of_N 0) with 0%Z. lia.
Qed.

Lemma NonDecimalIntegerLiteral_digits (s : string) :
  Spec.all_digits s = true -> JS.NonDecimalIntegerLiteral s = None.
Proof.
  destruct s as [|z [|p [|c rest]]]; try reflexivity.
  simpl. intros H. apply andb_true_iff in H as [_ H].
  apply andb_true_iff in H as [Hp _].
  destruct (digit_not_marker p Hp) as (_ & _ & _ & _ & Hx & Ho & Hb).
  rewrite Hx, Ho, Hb. now destruct (negb (Ascii.eqb z "0")).
Qed.

Lemma StringToNumber_digits (s : string) (n : N) :
  Spec.all_digits s = true -> JS.DecimalDigits s = Some n ->
  JS.StringToNumber s = Some (Z.of_N n).
Proof.
  intros Hs Hn. unfold JS.StringToNumber.
  rewrite (trim_no_whitespace s (all_digits_no_whitespace s Hs)).
  destruct s as [|c rest] eqn:Es; [discriminate|]. rewrite <- Es in *.
  rewrite (NonDecimalIntegerLiteral_digits s Hs).
  unfold JS.StrDecimalLiteral. rewrite Es. rewrite <- Es.
  assert (Hc : Spec.is_decimal_digit c = true).
  { rewrite Es in Hs. simpl in Hs. now apply andb_true_iff in Hs as [Hc _]. }
  destruct (digit_not_marker c Hc) as (_ & _ & Hplus & Hminus & _).
  rewrite Hplus, Hminus. now apply StrUnsignedDecimalLiteral_digits.
Qed.

Lemma StringToNumber_minus_digits (s : string) (n : N) :
  Spec.all_digits s = true -> JS.DecimalDigits s = Some n ->
  JS.StringToNumber (String "-" s) = Some (- Z.of_N n)%Z.
Proof.
  intros Hs Hn. unfold JS.StringToNumber.
  rewrite trim_no_whitespace.
  - assert (Hnd : JS.NonDecimalIntegerLiteral (String "-" s) = None)
      by (now destruct s as [|p [|c rest]]).
    rewrite Hnd. cbn [JS.StrDecimalLiteral].
    change (Ascii.eqb "-" "+") with false. change (Ascii.eqb "-" "-") with true.
    cbn iota. now rewrite (StrUnsignedDecimalLiteral_digits s n Hs Hn).
  - constructor; [reflexivity | now apply all_digits_no_whitespace].
Qed.

(** The text a template literal gives an integer reads back as that
    integer. *)
Lemma StringToNumber_Number_toString (z : Z) :
  JS.StringToNumber (JS.Number_toString z) = Some z.
Proof.
  unfold JS.Number_toString. destruct z as [|p|p]; [reflexivity| |].
  - cbn [Z.to_int NilZero.string_of_int].
    destruct (NilZero_string_of_uint_digits (Pos.to_uint p)) as (Hd & Hn).
    rewrite (StringToNumber_digits _ _ Hd Hn).
    change (N.of_uint (Pos.to_uint p)) with (Pos.of_uint (Pos.to_uint p)).
    now rewrite DecimalPos.Unsigned.of_to.
  - cbn [Z.to_int NilZero.string_of_int].
    destruct (NilZero_string_of_uint_digits (Pos.to_uint p)) as (Hd & Hn).
    rewrite (StringToNumber_minus_digits _ _ Hd Hn).
    change (N.of_uint (Pos.to_uint p)) with (Pos.of_uint (Pos.to_uint p)).
    now rewrite DecimalPos.Unsigned.of_to.
Qed.

End NumberText.

(** ** C7: the count shown with each result *)

Lemma displayed_cards_length {A B : Type} (f : A -> B) (items : list A) :
  List.length (if (0 <? List.length items)%nat then map f items else [])
  = List.length items.
Proof. destruct items; simpl; [reflexivity|]. now rewrite length_map. Qed.

(** C7.  After [filterData] the count reads "Showing X of Y results",
    where X is the number of cards in the grid, which is the number of
    records the filter kept, and Y is the number of records of the dataset;
    the dataset itself is not changed.  On the scenario dataset with "A"
    selected the text is "Showing 1 of 2 results". *)
Theorem count_string :
  (forall (st : Fetched.State) (sel : Fetched.Selection),
      let shown := Fetched.filterData st sel in
      let X := List.length
                 (Dom.resultsGrid_innerHTML (Fetched.results (Fetched.page shown))) in
      let Y := List.length (Fetched.database st) in
      Dom.resultsCount_textContent (Fetched.results (Fetched.page shown))
      = "Showing " ++ JS.Number_toString (Z.of_nat X)
        ++ " of " ++ JS.Number_toString (Z.of_nat Y) ++ " results"
      /\ X = List.length (Fetched.filteredItems (Fetched.database st) sel)
      /\ Fetched.database shown = Fetched.database st)
  /\ (forall (db : list Inline.Project) (pg : Inline.Page) (sel : Inline.Selection),
      let shown := Inline.filterData db pg sel in
      let X := List.length (Dom.resultsGrid_innerHTML (Inline.results shown)) in
      let Y := List.length db in
      Dom.resultsCount_textContent (Inline.results shown)
      = "Showing " ++ JS.Number_toString (Z.of_nat X)
        ++ " of " ++ JS.Number_toString (Z.of_nat Y) ++ " results"
      /\ X = List.length (Inline.filteredItems db sel))
  /\ Fetched.filteredItems Samples.dataset Samples.select_A = [Samples.record1]
  /\ Dom.resultsCount_textContent
       (Fetched.results
          (Fetched.page
             (Fetched.filterData
                {| Fetched.database := Samples.dataset;
                   Fetched.page := Samples.blank_page |}
                Samples.select_A)))
     = "Showing 1 of 2 results".
Proof.
  split; [|split; [|split]].
  - intros st sel shown X Y.
    assert (HX : X = List.length (Fetched.filteredItems (Fetched.database st) sel))
      by apply displayed_cards_length.
    split; [|split; [exact HX | reflexivity]].
    rewrite HX. reflexivity.
  - intros db pg sel shown X Y.
    assert (HX : X = List.length (Inline.filteredItems db sel))
      by apply displayed_cards_length.
    split; [|exact HX]. rewrite HX. reflexivity.
  - reflexivity.
  - reflexivity.
Qed.

(** ** C8: the loader *)

Lemma showing_is_not_failed (x y : string) :
  "Showing " ++ x ++ " of " ++ y ++ " results" <> "Failed to load data.".
Proof. discriminate. Qed.

(** C8.  Started on the page as the markup gives it, [fetchDatabase] ends
    in the failed state when [fetch] rejects, when the response is not [ok],
    and when its body does not parse: the dataset is empty and the page shows
    "Failed to load data." and the error texts.  No count that [filterData]
    writes, in particular the one for zero matches, is that text.  When the
    response is [ok] and parses, the dataset is the fetched sequence, the
    count is "Showing n of n results" and the texts of the no-results message
    are left as the markup has them. *)
Theorem fetchDatabase_outcomes (markup : Fetched.Page) :
  (forall reason,
      LoaderSpec.load_failed
        (Fetched.fetchDatabase (Fetched.initial markup) (Fetched.Rejected reason)))
  /\ (forall status body,
      LoaderSpec.load_failed
        (Fetched.fetchDatabase (Fetched.initial markup)
           (Fetched.Response false status body)))
  /\ (forall status,
      LoaderSpec.load_failed
        (Fetched.fetchDatabase (Fetched.initial markup)
           (Fetched.Response true status Fetched.InvalidJSON)))
  /\ (forall (st : Fetched.State) (sel : Fetched.Selection),
      Dom.resultsCount_textContent
        (Fetched.results (Fetched.page (Fetched.filterData st sel)))
      <> "Failed to load data.")
  /\ (forall status records,
      LoaderSpec.load_succeeded markup records
        (Fetched.fetchDatabase (Fetched.initial markup)
           (Fetched.Response true status (Fetched.Json records)))).
Proof.
  split; [|split; [|split; [|split]]].
  - intros reason. repeat split.
  - intros status body. repeat split.
  - intros status. repeat split.
  - intros st sel. apply showing_is_not_failed.
  - intros status records. unfold LoaderSpec.load_succeeded.
    split; [reflexivity|]. split; [reflexivity|].
    split; [apply showing_is_not_failed|].
    split; [reflexivity|]. split; [reflexivity|].
    simpl. now destruct records.
Qed.

(** A failed load does not touch the dataset: it is empty afterwards because
    the script starts with [let database = []]. *)
Lemma fetchDatabase_failure_keeps_database (st : Fetched.State) :
  (forall reason,
      Fetched.database (Fetched.fetchDatabase st (Fetched.Rejected reason))
      = Fetched.database st)
  /\ (forall status body,
      Fetched.database (Fetched.fetchDatabase st (Fetched.Response false status body))
      = Fetched.database st)
  /\ (forall status,
      Fetched.database
        (Fetched.fetchDatabase st (Fetched.Response true status Fetched.InvalidJSON))
      = Fetched.database st).
Proof. repeat split. Qed.

(** ** C9 and C10: looking a record up by its identifier *)

Lemma find_None_iff {A : Type} (p : A -> bool) (l : list A) :
  JS.find p l = None <-> forall x, In x l -> p x = false.
Proof.
  unfold JS.find. split; [apply find_none|].
  induction l as [|y l IH]; intros H; simpl; [reflexivity|].
  rewrite (H y (or_introl eq_refl)). apply IH. intros x Hx. apply H. now right.
Qed.

(** [find] returns the first element that passes the test. *)
Lemma find_Some_first {A : Type} (p : A -> bool) (l : list A) (x : A) :
  JS.find p l = Some x
  <-> exists before after,
        l = (before ++ x :: after)%list /\ p x = true
        /\ forall y, In y before -> p y = false.
Proof.
  unfold JS.find. induction l as [|y l IH]; simpl.
  - split; [discriminate|]. intros (before & after & H & _). now destruct before.
  - destruct (p y) eqn:Hy.
    + split.
      * intros [= ->]. exists [], l. repeat split; [exact Hy|]. intros z [].
      * intros (before & after & Hl & Hx & Hbefore).
        destruct before as [|b before]; simpl in Hl; injection Hl as -> Hl.
        -- reflexivity.
        -- rewrite (Hbefore b (or_introl eq_refl)) in Hy. discriminate.
    + rewrite IH. split.
      * intros (before & after & -> & Hx & Hbefore).
        exists (y :: before), after. repeat split; [exact Hx|].
        intros z [<- | Hz]; auto.
      * intros (before & after & Hl & Hx & Hbefore).
        destruct before as [|b before]; simpl in Hl; injection Hl as -> Hl.
        -- rewrite Hx in Hy. discriminate.
        -- exists before, after. repeat split; auto.
           intros z Hz. apply Hbefore. now right.
Qed.

Lemma find_Some_unique {A : Type} (p : A -> bool) (l : list A) (x : A) :
  In x l -> p x = true ->
  (forall y, In y l -> p y = true -> y = x) ->
  JS.find p l = Some x.
Proof.
  intros Hin Hp Huniq. destruct (JS.find p l) as [y|] eqn:Hfind.
  - f_equal. apply find_some in Hfind as [Hy Hpy]. now apply Huniq.
  - rewrite find_None_iff in Hfind. rewrite (Hfind x Hin) in Hp. discriminate.
Qed.

(** C9.  When no record's identifier is equal (in the sense of [==]) to
    the requested id, the lookup finds nothing and [openModal] returns with
    the whole page, the modal included, as it was.  When a record with that
    identifier is in the dataset the lookup returns a record with that
    identifier, and returns that very record when the identifier is
    unique. *)
Theorem openModal_lookup :
  (forall (st : Fetched.State) (itemId : JS.Value),
      (forall item, In item (Fetched.database st) ->
                    JS.looseEq (Fetched.Index item) itemId = false) ->
      Fetched.Lookup (Fetched.database st) itemId = None
      /\ Fetched.openModal st itemId = st)
  /\ (forall (db : list Fetched.Resource) (itemId : JS.Value) (item : Fetched.Resource),
      In item db -> JS.looseEq (Fetched.Index item) itemId = true ->
      (exists found, Fetched.Lookup db itemId = Some found /\ In found db
                     /\ JS.looseEq (Fetched.Index found) itemId = true)
      /\ ((forall other, In other db ->
                         JS.looseEq (Fetched.Index other) itemId = true ->
                         other = item) ->
          Fetched.Lookup db itemId = Some item))
  /\ (forall (db : list Inline.Project) (pg : Inline.Page) (itemId : JS.Value),
      (forall item, In item db ->
                    JS.looseEq (JS.Number (Inline.id item)) itemId = false) ->
      Inline.Lookup db itemId = None /\ Inline.openModal db pg itemId = pg)
  /\ (forall (db : list Inline.Project) (itemId : JS.Value) (item : Inline.Project),
      In item db -> JS.looseEq (JS.Number (Inline.id item)) itemId = true ->
      (exists found, Inline.Lookup db itemId = Some found /\ In found db
                     /\ JS.looseEq (JS.Number (Inline.id found)) itemId = true)
      /\ ((forall other, In other db ->
                         JS.looseEq (JS.Number (Inline.id other)) itemId = true ->
                         other = item) ->
          Inline.Lookup db itemId = Some item)).
Proof.
  split; [|split; [|split]].
  - intros st itemId Hnone.
    assert (Hfind : Fetched.Lookup (Fetched.database st) itemId = None)
      by (now apply find_None_iff).
    split; [exact Hfind|]. unfold Fetched.openModal. now rewrite Hfind.
  - intros db itemId item Hin Heq. split.
    + destruct (Fetched.Lookup db itemId) as [found|] eqn:Hfind.
      * exists found. apply find_some in Hfind as [Hf Hp]. auto.
      * unfold Fetched.Lookup in Hfind. rewrite find_None_iff in Hfind.
        rewrite (Hfind item Hin) in Heq. discriminate.
    + intros Huniq. now apply find_Some_unique.
  - intros db pg itemId Hnone.
    assert (Hfind : Inline.Lookup db itemId = None) by (now apply find_None_iff).
    split; [exact Hfind|]. unfold Inline.openModal. now rewrite Hfind.
  - intros db itemId item Hin Heq. split.
    + destruct (Inline.Lookup db itemId) as [found|] eqn:Hfind.
      * exists found. apply find_some in Hfind as [Hf Hp]. auto.
      * unfold Inline.Lookup in Hfind. rewrite find_None_iff in Hfind.
        rewrite (Hfind item Hin) in Heq. discriminate.
    + intros Huniq. now apply find_Some_unique.
Qed.

(** The statement on the scenario dataset (no record 7, one record 2) and
    on the inline dataset (no project 9, one project 1). *)
Lemma openModal_lookup_witness :
  Fetched.openModal
    {| Fetched.database := Samples.dataset; Fetched.page := Samples.blank_page |}
    (JS.Str "7")
  = {| Fetched.database := Samples.dataset; Fetched.page := Samples.blank_page |}
  /\ Fetched.Lookup Samples.dataset (JS.Str "2") = Some Samples.record2
  /\ Inline.openModal Inline.database Samples.blank_inline_page (JS.Str "9")
     = Samples.blank_inline_page
  /\ Inline.Lookup Inline.database (JS.Str "1") = Some Samples.project1.
Proof.
  destruct openModal_lookup as (Hmiss & Hhit & Hmiss' & Hhit').
  split; [|split; [|split]].
  - apply (Hmiss {| Fetched.database := Samples.dataset;
                    Fetched.page := Samples.blank_page |} (JS.Str "7")).
    intros item [<- | [<- | []]]; reflexivity.
  - apply (Hhit Samples.dataset (JS.Str "2") Samples.record2).
    + right; left; reflexivity.
    + reflexivity.
    + intros other [<- | [<- | []]]; [discriminate | reflexivity].
  - apply (Hmiss' Inline.database Samples.blank_inline_page (JS.Str "9")).
    intros item Hitem. unfold Inline.database in Hitem. simpl in Hitem.
    repeat (destruct Hitem as [<- | Hitem]; [reflexivity|]). destruct Hitem.
  - apply (Hhit' Inline.database (JS.Str "1") Samples.project1).
    + left. reflexivity.
    + reflexivity.
    + intros other Hother. unfold Inline.database in Hother. simpl in Hother.
      repeat (destruct Hother as [<- | Hother];
              [first [reflexivity | discriminate]|]).
      destruct Hother.
Defined.

(** C10.  The lookup compares with [==]: the text of an integer is equal
    to that integer, so the id "3" finds the record whose identifier is the
    number 3, and the id a card carries finds the card's record when its
    identifier is a number no other record shares.  The record returned is the first one of the dataset whose
    identifier is equal to the id, so of two records sharing an identifier
    the earlier one is returned. *)
Theorem Lookup_coerces_first_wins :
  (forall z, JS.looseEq (JS.Number z) (JS.Str (JS.Number_toString z)) = true)
  /\ (forall (db : list Fetched.Resource) (itemId : JS.Value) (item : Fetched.Resource),
      Fetched.Lookup db itemId = Some item
      <-> exists before after,
            db = (before ++ item :: after)%list
            /\ JS.looseEq (Fetched.Index item) itemId = true
            /\ forall other, In other before ->
                             JS.looseEq (Fetched.Index other) itemId = false)
  /\ (forall (db : list Inline.Project) (itemId : JS.Value) (item : Inline.Project),
      Inline.Lookup db itemId = Some item
      <-> exists before after,
            db = (before ++ item :: after)%list
            /\ JS.looseEq (JS.Number (Inline.id item)) itemId = true
            /\ forall other, In other before ->
                             JS.looseEq (JS.Number (Inline.id other)) itemId = false)
  /\ (forall (db : list Fetched.Resource) (item : Fetched.Resource) (z : Z),
      In item db -> Fetched.Index item = JS.Number z ->
      (forall other, In other db ->
         JS.looseEq (Fetched.Index other) (JS.Str (JS.Number_toString z)) = true ->
         other = item) ->
      Fetched.Lookup db (JS.Str (Dom.data_id (Fetched.renderCard item))) = Some item)
  /\ Fetched.Lookup (Samples.dataset ++ [Samples.twin_a; Samples.twin_b]) (JS.Str "3")
     = Some Samples.twin_a
  /\ Fetched.Lookup (Samples.dataset ++ [Samples.twin_b; Samples.twin_a]) (JS.Str "3")
     = Some Samples.twin_b
  /\ Fetched.Lookup (Samples.dataset ++ [Samples.twin_b; Samples.twin_a]) (JS.Number 3)
     = Some Samples.twin_b
  /\ option_map Inline.id (Inline.Lookup Inline.database (JS.Str "3")) = Some 3%Z.
Proof.
  assert (Hround : forall z,
             JS.looseEq (JS.Number z) (JS.Str (JS.Number_toString z)) = true).
  { intros z. simpl. rewrite StringToNumber_Number_toString. apply Z.eqb_refl. }
  split; [exact Hround|].
  split; [intros db itemId item;
          apply (find_Some_first (fun i => JS.looseEq (Fetched.Index i) itemId))|].
  split; [intros db itemId item;
          apply (find_Some_first
                   (fun i => JS.looseEq (JS.Number (Inline.id i)) itemId))|].
  split; [|repeat split].
  intros db item z Hin Hz Huniq. simpl. rewrite Hz. simpl.
  apply find_Some_unique; [exact Hin | rewrite Hz; apply Hround | exact Huniq].
Qed.

(** The statement on a dataset whose third record has the number 3 as its
    identifier: the id "3" of its card finds it. *)
Lemma Lookup_coerces_first_wins_witness :
  Fetched.Lookup (Samples.dataset ++ [Samples.twin_a]) (JS.Str "3")
  = Some Samples.twin_a.
Proof.
  apply (proj1 (proj2 (proj2 (proj2 Lookup_coerces_first_wins)))
           (Samples.dataset ++ [Samples.twin_a])%list Samples.twin_a 3%Z).
  - do 2 right. left. reflexivity.
  - reflexivity.
  - intros other [<- | [<- | [<- | []]]]; [discriminate | discriminate | reflexivity].
Defined.

(** ** The built-ins on sample inputs *)

(** Strings that convert to an integer: surrounding white space is dropped,
    the empty text is 0, a sign, leading zeros, a fraction or an exponent that
    leave an integer, and the radix prefixes are accepted. *)
Example StringToNumber_integers :
  JS.StringToNumber "3" = Some 3%Z
  /\ JS.StringToNumber "  12  " = Some 12%Z
  /\ JS.StringToNumber "" = Some 0%Z
  /\ JS.StringToNumber "-3" = Some (-3)%Z
  /\ JS.StringToNumber "+3" = Some 3%Z
  /\ JS.StringToNumber "012" = Some 12%Z
  /\ JS.StringToNumber "1.0" = Some 1%Z
  /\ JS.StringToNumber "1." = Some 1%Z
  /\ JS.StringToNumber "1e2" = Some 100%Z
  /\ JS.StringToNumber "10e-1" = Some 1%Z
  /\ JS.StringToNumber ".5e1" = Some 5%Z
  /\ JS.StringToNumber "0x1F" = Some 31%Z
  /\ JS.StringToNumber "0b101" = Some 5%Z
  /\ JS.StringToNumber "0o17" = Some 15%Z.
Proof. repeat split. Qed.

(** Strings that convert to no integer. *)
Example StringToNumber_others :
  JS.StringToNumber "abc" = None
  /\ JS.StringToNumber "1.5" = None
  /\ JS.StringToNumber "1e-2" = None
  /\ JS.StringToNumber "." = None
  /\ JS.StringToNumber "-" = None
  /\ JS.StringToNumber "1e" = None
  /\ JS.StringToNumber "e1" = None
  /\ JS.StringToNumber "0x" = None
  /\ JS.StringToNumber "+0x10" = None
  /\ JS.StringToNumber "0b102" = None
  /\ JS.StringToNumber "1 2" = None
  /\ JS.StringToNumber "Infinity" = None
  /\ JS.StringToNumber "undefined" = None.
Proof. repeat split. Qed.

Example looseEq_samples :
  JS.looseEq (JS.Number 3) (JS.Str "3") = true
  /\ JS.looseEq (JS.Str "3") (JS.Number 3) = true
  /\ JS.looseEq (JS.Str "3") (JS.Str "03") = false
  /\ JS.looseEq (JS.Number 3) (JS.Str "03") = true
  /\ JS.looseEq JS.Undefined (JS.Str "undefined") = false
  /\ JS.looseEq (JS.Number 0) (JS.Str "") = true.
Proof. repeat split. Qed.

Example sort_and_Set_samples :
  JS.Set_from ["b"; "a"; "b"; "c"; "a"] = ["b"; "a"; "c"]
  /\ JS.sort ["b"; "a"; "B"; "10"; "9"] = ["10"; "9"; "B"; "a"; "b"]
  /\ Inline.categories Inline.database
     = ["AI/ML"; "Data Science"; "Mobile App"; "Web Development"]
  /\ Inline.statuses Inline.database = ["Completed"; "In Progress"; "Planning"].
Proof. repeat split; vm_compute; reflexivity. Qed.

(** The scenario of the specification: with "A" and "B" both selected only
    the first record is shown. *)
Example scenario_A_and_B :
  Fetched.filteredItems Samples.dataset Samples.select_A_B = [Samples.record1].
Proof. reflexivity. Qed.

(** * Further properties of the scripts *)

(** ** Filtering by several selections *)
Section FilterAlgebra.

Lemma bool_eq_iff (a b : bool) : (a = true <-> b = true) -> a = b.
Proof. destruct a, b; intuition congruence. Qed.

Lemma filter_filter {A : Type} (p q : A -> bool) (l : list A) :
  List.filter q (List.filter p l) = List.filter (fun x => p x && q x) l.
Proof.
  induction l as [|x l IH]; simpl; [reflexivity|].
  destruct (p x) eqn:Hp; simpl; [|exact IH].
  destruct (q x); simpl; now rewrite IH.
Qed.

Lemma groupMatch_app (s1 s2 : list string) (field : option (list string)) :
  Fetched.groupMatch (s1 ++ s2) field
  = Fetched.groupMatch s1 field && Fetched.groupMatch s2 field.
Proof.
  apply bool_eq_iff.
  rewrite andb_true_iff, !groupMatch_contains_every.
  unfold Spec.contains_every. setoid_rewrite elem_of_app. firstorder.
Qed.

Lemma Matches_both (s1 s2 : Fetched.Selection) (item : Fetched.Resource) :
  Fetched.Matches (Selections.both s1 s2) item
  = Fetched.Matches s1 item && Fetched.Matches s2 item.
Proof.
  unfold Fetched.Matches, Selections.both. simpl. rewrite !groupMatch_app.
  destruct (Fetched.groupMatch (Fetched.selectedAreasOfSupport s1) _),
    (Fetched.groupMatch (Fetched.selectedFormats s1) _),
    (Fetched.groupMatch (Fetched.selectedPrices s1) _),
    (Fetched.groupMatch (Fetched.selectedAreasOfSupport s2) _),
    (Fetched.groupMatch (Fetched.selectedFormats s2) _); reflexivity.
Qed.

Lemma Matches_included (s s' : Fetched.Selection) (item : Fetched.Resource) :
  Selections.included s s' ->
  Fetched.Matches s' item = true -> Fetched.Matches s item = true.
Proof. apply Fetched_Matches_antitone. Qed.

Lemma filter_implied {A : Type} (p q : A -> bool) (l : list A) :
  (forall x, q x = true -> p x = true) ->
  List.filter q l = List.filter q (List.filter p l).
Proof.
  intros Himp. rewrite filter_filter. apply filter_ext. intros x.
  destruct (q x) eqn:Hq; [now rewrite (Himp x Hq) | now rewrite andb_false_r].
Qed.

End FilterAlgebra.

(** Filtering the result of a filter run again gives what one run with the
    boxes of both selections checked gives; in particular the two runs can
    be made in either order. *)
Theorem filteredItems_successive (db : list Fetched.Resource)
  (s1 s2 : Fetched.Selection) :
  Fetched.filteredItems (Fetched.filteredItems db s1) s2
  = Fetched.filteredItems db (Selections.both s1 s2)
  /\ Fetched.filteredItems (Fetched.filteredItems db s1) s2
     = Fetched.filteredItems (Fetched.filteredItems db s2) s1.
Proof.
  unfold Fetched.filteredItems. rewrite !filter_filter. split.
  - apply filter_ext. intros item. now rewrite Matches_both.
  - apply filter_ext. intros item. apply andb_comm.
Qed.

(** When every box checked in [s] is also checked in [s'], the records shown
    for [s'] are a subsequence of the records shown for [s]: checking more
    boxes only removes cards, and the count cannot grow. *)
Theorem filteredItems_narrowing (db : list Fetched.Resource)
  (s s' : Fetched.Selection) :
  Selections.included s s' ->
  sublist (Fetched.filteredItems db s') (Fetched.filteredItems db s)
  /\ (List.length (Fetched.filteredItems db s')
      <= List.length (Fetched.filteredItems db s))%nat.
Proof.
  intros Hinc.
  assert (Hsub : sublist (Fetched.filteredItems db s') (Fetched.filteredItems db s)).
  { unfold Fetched.filteredItems.
    rewrite (filter_implied (Fetched.Matches s) (Fetched.Matches s') db).
    - apply filter_sublist.
    - intros item. now apply Matches_included. }
  split; [exact Hsub | now apply sublist_length].
Qed.

Lemma filteredItems_narrowing_witness :
  sublist (Fetched.filteredItems Samples.dataset Samples.select_A_B)
          (Fetched.filteredItems Samples.dataset Samples.select_A).
Proof.
  apply (filteredItems_narrowing Samples.dataset Samples.select_A Samples.select_A_B).
  intros g v. destruct g; simpl; [auto| |auto].
  intros Hv. apply list_elem_of_singleton in Hv. subst v. left.
Defined.

(** The records shown depend only on which values are checked in each
    group, not on the order in which the form lists them nor on
    repetitions. *)
Theorem filteredItems_same_values :
  (forall (db : list Fetched.Resource) (s s' : Fetched.Selection),
      Selections.same_values s s' ->
      Fetched.filteredItems db s = Fetched.filteredItems db s')
  /\ (forall (db : list Inline.Project) (s s' : Inline.Selection),
      (forall g v, v ∈ InlineGroups.selection_of g s
                   <-> v ∈ InlineGroups.selection_of g s') ->
      Inline.filteredItems db s = Inline.filteredItems db s').
Proof.
  split.
  - intros db s s' Hsame. apply filter_ext. intros item. apply bool_eq_iff.
    split; apply Fetched_Matches_antitone; intros g v; apply Hsame.
  - intros db s s' Hsame. apply filter_ext. intros item. apply bool_eq_iff.
    rewrite !Inline_Matches_groups. unfold Spec.contains_every.
    pose proof (Hsame InlineGroups.Category) as Hc.
    pose proof (Hsame InlineGroups.Status) as Hs.
    pose proof (Hsame InlineGroups.Tech) as Ht. simpl in Hc, Hs, Ht.
    assert (Hnil : forall l l' : list string,
               (forall v, v ∈ l <-> v ∈ l') -> l = [] <-> l' = []).
    { intros l l' H. split; intros ->.
      - destruct l' as [|x l']; [reflexivity|].
        exfalso. eapply not_elem_of_nil, H. left.
      - destruct l as [|x l]; [reflexivity|].
        exfalso. eapply not_elem_of_nil, H. left. }
    rewrite (Hnil _ _ Hc), (Hnil _ _ Hs).
    setoid_rewrite Hc. setoid_rewrite Hs. setoid_rewrite Ht. reflexivity.
Qed.

Lemma filteredItems_same_values_witness :
  Fetched.filteredItems Samples.dataset
    {| Fetched.selectedAreasOfSupport := [];
       Fetched.selectedFormats := ["B"; "A"; "B"];
       Fetched.selectedPrices := [] |}
  = Fetched.filteredItems Samples.dataset Samples.select_A_B.
Proof.
  apply (proj1 filteredItems_same_values).
  intros g v. destruct g; simpl; [reflexivity| |reflexivity].
  rewrite !elem_of_cons. tauto.
Defined.

(** ** Checkboxes and the records they select *)
Section SingleBox.

Lemma filter_nonempty_iff {A : Type} (p : A -> bool) (l : list A) :
  List.filter p l <> [] <-> exists x, In x l /\ p x = true.
Proof.
  split.
  - intros Hne. destruct (List.filter p l) as [|x rest] eqn:Hf; [congruence|].
    exists x. apply filter_In. rewrite Hf. now left.
  - intros (x & Hx & Hp) Hnil.
    assert (Hin : In x (List.filter p l)) by (apply filter_In; auto).
    now rewrite Hnil in Hin.
Qed.

Lemma contains_every_single (field : list string) (v : string) :
  Spec.contains_every field [v] <-> v ∈ field.
Proof.
  unfold Spec.contains_every. split.
  - intros H. apply H. left.
  - intros H x Hx. apply list_elem_of_singleton in Hx. now subst x.
Qed.

Lemma contains_every_nil (field : list string) : Spec.contains_every field [].
Proof. intros v Hv. now apply elem_of_nil in Hv. Qed.


Lemma Inline_Matches_single (g : InlineGroups.Group) (v : string)
  (item : Inline.Project) :
  Inline.Matches (Selections.inline_single g v) item = true
  <-> v ∈ Selections.inline_values g item.
Proof.
  rewrite Inline_Matches_groups.
  pose proof (contains_every_nil (Inline.tech item)) as Hnil.
  destruct g; simpl; rewrite ?contains_every_single, ?list_elem_of_singleton.
  - split.
    + intros (_ & [Hc | Hc] & _); [discriminate | now symmetry].
    + intros ->. repeat split; auto.
  - split.
    + intros (_ & _ & [Hs | Hs]); [discriminate | now symmetry].
    + intros ->. repeat split; auto.
  - tauto.
Qed.

Lemma map_elem_of_vocabulary {A : Type} (f : A -> string) (db : list A) (v : string) :
  v ∈ JS.sort (JS.Set_from (map f db)) <-> exists item, item ∈ db /\ f item = v.
Proof.
  rewrite sort_elem_of, Set_from_elem_of, list_elem_of_In, in_map_iff.
  split; intros (item & H1 & H2); exists item.
  - split; [now apply list_elem_of_In | exact H1].
  - split; [exact H2 | now apply list_elem_of_In].
Qed.

Lemma inline_vocabulary_elem_of (g : InlineGroups.Group) (db : list Inline.Project)
  (v : string) :
  v ∈ Selections.inline_vocabulary g db
  <-> exists item, item ∈ db /\ v ∈ Selections.inline_values g item.
Proof.
  destruct g; simpl.
  - unfold Inline.categories. rewrite map_elem_of_vocabulary.
    setoid_rewrite list_elem_of_singleton. firstorder congruence.
  - unfold Inline.statuses. rewrite map_elem_of_vocabulary.
    setoid_rewrite list_elem_of_singleton. firstorder congruence.
  - apply (proj2 (Inline_allTech_spec db)).
Qed.

End SingleBox.


(** The same in the script with the inline dataset, for its three groups:
    a category, status or technology has a checkbox exactly when checking it
    alone shows at least one project, and the projects shown are those with
    that category, status or technology. *)
Theorem inline_checkbox_alone_shows_projects (db : list Inline.Project)
  (g : InlineGroups.Group) (v : string) :
  (v ∈ Selections.inline_vocabulary g db
   <-> Inline.filteredItems db (Selections.inline_single g v) <> [])
  /\ (forall item,
        In item (Inline.filteredItems db (Selections.inline_single g v))
        <-> In item db /\ v ∈ Selections.inline_values g item).
Proof.
  assert (Hitems : forall item,
             In item (Inline.filteredItems db (Selections.inline_single g v))
             <-> In item db /\ v ∈ Selections.inline_values g item).
  { intros item. unfold Inline.filteredItems.
    now rewrite filter_In, Inline_Matches_single. }
  split; [|exact Hitems].
  rewrite inline_vocabulary_elem_of.
  unfold Inline.filteredItems. rewrite filter_nonempty_iff.
  split; intros (item & Hin & Hv); exists item.
  - split; [now apply list_elem_of_In | now apply Inline_Matches_single].
  - split; [now apply list_elem_of_In | now apply Inline_Matches_single].
Qed.

(** ** What a filter run and a load leave on the page *)

(** A filter run leaves no trace of the selection before it: after two runs
    the page is what the second run alone gives.  It writes the result area
    only: the dataset, the checkboxes, the modal and the loading indicator are
    as they were. *)
Theorem filterData_last_selection_wins :
  (forall (st : Fetched.State) (s1 s2 : Fetched.Selection),
      Fetched.filterData (Fetched.filterData st s1) s2 = Fetched.filterData st s2
      /\ Fetched.database (Fetched.filterData st s1) = Fetched.database st
      /\ Fetched.modal (Fetched.page (Fetched.filterData st s1))
         = Fetched.modal (Fetched.page st)
      /\ (forall g, FetchedGroups.container_of g (Fetched.page (Fetched.filterData st s1))
                    = FetchedGroups.container_of g (Fetched.page st))
      /\ Fetched.loadingIndicator_hidden (Fetched.page (Fetched.filterData st s1))
         = Fetched.loadingIndicator_hidden (Fetched.page st))
  /\ (forall (db : list Inline.Project) (pg : Inline.Page) (s1 s2 : Inline.Selection),
      Inline.filterData db (Inline.filterData db pg s1) s2 = Inline.filterData db pg s2
      /\ Inline.modal (Inline.filterData db pg s1) = Inline.modal pg
      /\ Inline.techContainer_innerHTML (Inline.filterData db pg s1)
         = Inline.techContainer_innerHTML pg
      /\ Inline.categoryContainer_innerHTML (Inline.filterData db pg s1)
         = Inline.categoryContainer_innerHTML pg
      /\ Inline.statusContainer_innerHTML (Inline.filterData db pg s1)
         = Inline.statusContainer_innerHTML pg).
Proof.
  split.
  - intros st s1 s2. repeat split.
  - intros db pg s1 s2. repeat split.
Qed.

(** Whatever state [fetchDatabase] starts from and however its awaited
    calls end, the loading indicator is shown while they are pending and
    hidden when the function completes, and the text "Loading data..." does
    not stay in the count. *)
Theorem fetchDatabase_loading_indicator (st : Fetched.State)
  (outcome : Fetched.FetchResult) :
  Fetched.loadingIndicator_hidden (Fetched.page (Fetched.fetch_started st)) = false
  /\ Dom.resultsCount_textContent
       (Fetched.results (Fetched.page (Fetched.fetch_started st)))
     = "Loading data..."
  /\ Fetched.loadingIndicator_hidden
       (Fetched.page (Fetched.fetchDatabase st outcome)) = true
  /\ Dom.resultsCount_textContent
       (Fetched.results (Fetched.page (Fetched.fetchDatabase st outcome)))
     <> "Loading data...".
Proof.
  split; [reflexivity|]. split; [reflexivity|].
  destruct outcome as [reason | [] status []]; split;
    first [reflexivity | discriminate].
Qed.

(** The filter checkboxes follow the load: after a load that delivers the
    records each container lists the vocabulary of the delivered records,
    whatever it held before; after a load that fails the containers are
    untouched, so no checkbox is created. *)
Theorem fetchDatabase_checkboxes (st : Fetched.State) (g : FetchedGroups.Group) :
  (forall status records,
      map Dom.checkbox_value
        (FetchedGroups.container_of g
           (Fetched.page
              (Fetched.fetchDatabase st (Fetched.Response true status (Fetched.Json records)))))
      = Fetched.vocabulary (FetchedGroups.field_of g) records)
  /\ (forall outcome,
      Outcomes.failed outcome ->
      FetchedGroups.container_of g (Fetched.page (Fetched.fetchDatabase st outcome))
      = FetchedGroups.container_of g (Fetched.page st)).
Proof.
  split.
  - intros status records. destruct g; simpl; rewrite map_map; apply map_id.
  - intros outcome Hfailed.
    destruct outcome as [reason | [] status []]; simpl in Hfailed;
      try contradiction; now destruct g.
Qed.

Lemma fetchDatabase_checkboxes_witness :
  FetchedGroups.container_of FetchedGroups.FormatGroup
    (Fetched.page
       (Fetched.fetchDatabase (Fetched.initial Samples.blank_page)
          (Fetched.Response false 404 Fetched.InvalidJSON)))
  = [].
Proof.
  apply (proj2 (fetchDatabase_checkboxes (Fetched.initial Samples.blank_page)
                  FetchedGroups.FormatGroup)
           (Fetched.Response false 404 Fetched.InvalidJSON) I).
Defined.

(** After a failed first load a filter run (the form's reset button still
    works) replaces the failure text of the count by "Showing 0 of 0
    results" and shows no card, but the no-results message keeps the error
    heading and advice that the failed load wrote. *)
Theorem filterData_after_failed_load (markup : Fetched.Page)
  (outcome : Fetched.FetchResult) (sel : Fetched.Selection) :
  Outcomes.failed outcome ->
  let st := Fetched.filterData
              (Fetched.fetchDatabase (Fetched.initial markup) outcome) sel in
  Dom.resultsCount_textContent (Fetched.results (Fetched.page st))
  = "Showing 0 of 0 results"
  /\ Dom.resultsGrid_innerHTML (Fetched.results (Fetched.page st)) = []
  /\ Dom.resultsGrid_hidden (Fetched.results (Fetched.page st)) = true
  /\ Dom.noResultsMessage_hidden (Fetched.results (Fetched.page st)) = false
  /\ Dom.noResultsMessage_h3 (Fetched.results (Fetched.page st)) = "Error loading data"
  /\ Dom.noResultsMessage_p (Fetched.results (Fetched.page st))
     = "Please try again later.".
Proof.
  intros Hfailed.
  destruct outcome as [reason | [] status []]; simpl in Hfailed;
    try contradiction; repeat split.
Qed.

Lemma filterData_after_failed_load_witness :
  Dom.noResultsMessage_h3
    (Fetched.results
       (Fetched.page
          (Fetched.filterData
             (Fetched.fetchDatabase (Fetched.initial Samples.blank_page)
                (Fetched.Rejected "Failed to fetch"))
             FetchedGroups.no_selection)))
  = "Error loading data".
Proof.
  apply (filterData_after_failed_load Samples.blank_page
           (Fetched.Rejected "Failed to fetch") FetchedGroups.no_selection I).
Defined.

(** ** The modal *)
Section ModalFacts.

Lemma In_badge_section (heading : string) (field : option (list string))
  (b : Dom.Block) :
  In b (Fetched.badge_section heading field)
  <-> exists badges, field = Some badges /\ badges <> []
                     /\ b = Dom.BadgeSection heading badges.
Proof.
  destruct field as [[|v vs]|]; simpl.
  - split; [tauto|]. intros (badges & [= <-] & Hne & _). congruence.
  - split.
    + intros [<- | []]. exists (v :: vs). repeat split. discriminate.
    + intros (badges & [= <-] & _ & ->). now left.
  - split; [tauto|]. intros (badges & H & _). discriminate.
Qed.

Lemma In_link_section (link : option string) (b : Dom.Block) :
  In b (Fetched.link_section link)
  <-> exists href, link = Some href /\ href <> EmptyString /\ b = Dom.LinkSection href.
Proof.
  destruct link as [[|c rest]|]; simpl.
  - split; [tauto|]. intros (href & [= <-] & Hne & _). congruence.
  - split.
    + intros [<- | []]. exists (String c rest). repeat split. discriminate.
    + intros (href & [= <-] & _ & ->). now left.
  - split; [tauto|]. intros (href & H & _). discriminate.
Qed.

Lemma In_further_info_section (info : option string) (b : Dom.Block) :
  In b (Fetched.further_info_section info)
  <-> exists text, info = Some text /\ text <> EmptyString
                   /\ b = Dom.TextSection "Further Information" text.
Proof.
  destruct info as [[|c rest]|]; simpl.
  - split; [tauto|]. intros (text & [= <-] & Hne & _). congruence.
  - split.
    + intros [<- | []]. exists (String c rest). repeat split. discriminate.
    + intros (text & [= <-] & _ & ->). now left.
  - split; [tauto|]. intros (text & H & _). discriminate.
Qed.


Lemma looseEq_undefined_text (v : JS.Value) :
  JS.looseEq v (JS.Str "undefined") = true -> v = JS.Str "undefined".
Proof.
  destruct v as [|z|s]; simpl; [discriminate| |].
  - change (JS.StringToNumber "undefined") with (@None Z). discriminate.
  - intros H. apply String.eqb_eq in H. now subst s.
Qed.

Lemma NoDup_map_injective {A B : Type} (f : A -> B) (l : list A) (a b : A) :
  NoDup (map f l) -> In a l -> In b l -> f a = f b -> a = b.
Proof.
  induction l as [|x l IH]; simpl; [tauto|].
  intros Hnd Ha Hb Hf. apply NoDup_cons in Hnd as [Hx Hnd].
  destruct Ha as [-> | Ha], Hb as [-> | Hb]; auto.
  - exfalso. apply Hx. rewrite Hf. apply list_elem_of_In, in_map, Hb.
  - exfalso. apply Hx. rewrite <- Hf. apply list_elem_of_In, in_map, Ha.
Qed.

End ModalFacts.

(** When [openModal] finds the record, the modal's body starts with the
    summary, and each optional section is there exactly when the record has
    the field and the field is not empty: a badge section never has an empty
    list of badges, a link or note section never an empty text.  The title is
    the record's name, the container is shown, scrolling is blocked and one
    10 ms timer is added. *)
Theorem openModal_sections (st : Fetched.State) (itemId : JS.Value)
  (item : Fetched.Resource) :
  Fetched.Lookup (Fetched.database st) itemId = Some item ->
  let m := Fetched.modal (Fetched.page (Fetched.openModal st itemId)) in
  let body := Dom.modalContent_innerHTML m in
  hd_error body = Some (Dom.Paragraph (Fetched.Summary item))
  /\ (forall text, In (Dom.Paragraph text) body <-> text = Fetched.Summary item)
  /\ (forall heading badges,
        In (Dom.BadgeSection heading badges) body
        <-> badges <> []
            /\ ((heading = "Areas of Support"
                 /\ Fetched.Areas_of_support item = Some badges)
                \/ (heading = "Format" /\ Fetched.Format item = Some badges)
                \/ (heading = "Price" /\ Fetched.Price item = Some badges)))
  /\ (forall href,
        In (Dom.LinkSection href) body
        <-> href <> EmptyString /\ Fetched.Link item = Some href)
  /\ (forall heading text,
        In (Dom.TextSection heading text) body
        <-> text <> EmptyString /\ heading = "Further Information"
            /\ Fetched.Further_info item = Some text)
  /\ Dom.modalTitle_textContent m = Fetched.Name item
  /\ Dom.infoModalContainer_hidden m = false
  /\ Dom.body_style_overflow m = "hidden"
  /\ Dom.timers m
     = (Dom.timers (Fetched.modal (Fetched.page st))
        ++ [(10%nat, Dom.ShowModalPanel)])%list.
Proof.
  intros Hfound m body. subst m body. unfold Fetched.openModal. rewrite Hfound.
  cbn [Fetched.with_modal Fetched.page Fetched.modal Dom.modalContent_innerHTML
       Dom.modalTitle_textContent Dom.infoModalContainer_hidden
       Dom.body_style_overflow Dom.timers hd_error].
  set (body := (_ :: _)%list).
  assert (Hbody : forall b,
             In b body
             <-> b = Dom.Paragraph (Fetched.Summary item)
                 \/ (exists badges, Fetched.Areas_of_support item = Some badges
                        /\ badges <> []
                        /\ b = Dom.BadgeSection "Areas of Support" badges)
                 \/ (exists badges, Fetched.Format item = Some badges
                        /\ badges <> [] /\ b = Dom.BadgeSection "Format" badges)
                 \/ (exists badges, Fetched.Price item = Some badges
                        /\ badges <> [] /\ b = Dom.BadgeSection "Price" badges)
                 \/ (exists href, Fetched.Link item = Some href
                        /\ href <> EmptyString /\ b = Dom.LinkSection href)
                 \/ (exists text, Fetched.Further_info item = Some text
                        /\ text <> EmptyString
                        /\ b = Dom.TextSection "Further Information" text)).
  { intros b. unfold body. simpl.
    rewrite !in_app_iff, !In_badge_section, In_link_section,
      In_further_info_section.
    split; [intros [<- | H]; [now left | now right] |].
    intros [-> | H]; [now left | now right]. }
  clearbody body.
  split; [|split; [|split; [|split; [|split]]]].
  - reflexivity.
  - intros text. rewrite Hbody. split.
    + intros [[= ->] | [(? & _ & _ & [=]) | [(? & _ & _ & [=]) | [(? & _ & _ & [=])
        | [(? & _ & _ & [=]) | (? & _ & _ & [=])]]]]]. reflexivity.
    + intros ->. now left.
  - intros heading badges. rewrite Hbody. split.
    + intros [[=] | [(? & Hf & Hne & [= -> ->]) | [(? & Hf & Hne & [= -> ->])
        | [(? & Hf & Hne & [= -> ->]) | [(? & _ & _ & [=]) | (? & _ & _ & [=])]]]]];
        (split; [exact Hne|]); auto.
    + intros (Hne & [(-> & Hf) | [(-> & Hf) | (-> & Hf)]]);
        [right; left | right; right; left | right; right; right; left];
        exists badges; auto.
  - intros href. rewrite Hbody. split.
    + intros [[=] | [(? & _ & _ & [=]) | [(? & _ & _ & [=]) | [(? & _ & _ & [=])
        | [(? & Hl & Hne & [= ->]) | (? & _ & _ & [=])]]]]]. auto.
    + intros (Hne & Hl). do 4 right. left. exists href. auto.
  - intros heading text. rewrite Hbody. split.
    + intros [[=] | [(? & _ & _ & [=]) | [(? & _ & _ & [=]) | [(? & _ & _ & [=])
        | [(? & _ & _ & [=]) | (? & Hi & Hne & [= -> ->])]]]]]. auto.
    + intros (Hne & -> & Hi). do 5 right. exists text. auto.
  - repeat split.
Qed.

Lemma openModal_sections_witness :
  Dom.modalContent_innerHTML
    (Fetched.modal
       (Fetched.page
          (Fetched.openModal (Examples.state_of Examples.catalogue) (JS.Str "7"))))
  = [Dom.Paragraph "Someone to talk to";
     Dom.BadgeSection "Areas of Support" ["Anxiety"; "Sleep"];
     Dom.LinkSection "https://example.org/talk"]
  /\ ~ In (Dom.BadgeSection "Format" [])
          (Dom.modalContent_innerHTML
             (Fetched.modal
                (Fetched.page
                   (Fetched.openModal (Examples.state_of Examples.catalogue)
                      (JS.Str "7"))))).
Proof.
  split; [reflexivity|].
  destruct (openModal_sections (Examples.state_of Examples.catalogue) (JS.Str "7")
              Examples.counselling eq_refl) as (_ & _ & Hbadges & _).
  intros Hin. apply Hbadges in Hin as [Hne _]. now apply Hne.
Defined.



(** A record without identifier cannot be opened from its card: the card
    carries the text "undefined", which [==] does not equate with a missing
    identifier.  The click opens nothing, unless some record has the string
    "undefined" as its identifier, and then it opens that other record. *)
Theorem card_without_identifier (st : Fetched.State) (item : Fetched.Resource) :
  Fetched.Index item = JS.Undefined ->
  Dom.data_id (Fetched.renderCard item) = "undefined"
  /\ Fetched.Lookup (Fetched.database st)
       (JS.Str (Dom.data_id (Fetched.renderCard item))) <> Some item
  /\ (forall found,
        Fetched.Lookup (Fetched.database st)
          (JS.Str (Dom.data_id (Fetched.renderCard item))) = Some found ->
        Fetched.Index found = JS.Str "undefined")
  /\ ((forall other, In other (Fetched.database st) ->
                     Fetched.Index other <> JS.Str "undefined") ->
      Fetched.card_clicked st (Fetched.renderCard item) = st).
Proof.
  intros Hid.
  assert (Hcard : Dom.data_id (Fetched.renderCard item) = "undefined")
    by (simpl; now rewrite Hid).
  rewrite Hcard.
  assert (Hfound : forall found,
             Fetched.Lookup (Fetched.database st) (JS.Str "undefined") = Some found ->
             Fetched.Index found = JS.Str "undefined").
  { intros found Hf. apply find_some in Hf as [_ Heq].
    now apply looseEq_undefined_text. }
  split; [reflexivity|]. split; [|split; [exact Hfound|]].
  - intros Hf. apply Hfound in Hf. congruence.
  - intros Hnone. unfold Fetched.card_clicked. rewrite Hcard.
    unfold Fetched.openModal.
    destruct (Fetched.Lookup (Fetched.database st) (JS.Str "undefined"))
      as [found|] eqn:Hf; [|reflexivity].
    exfalso. apply (Hnone found).
    + apply find_some in Hf. tauto.
    + now apply Hfound.
Qed.

Lemma card_without_identifier_witness :
  Fetched.card_clicked (Examples.state_of Examples.catalogue)
    (Fetched.renderCard Examples.nameless)
  = Examples.state_of Examples.catalogue.
Proof.
  apply (card_without_identifier (Examples.state_of Examples.catalogue)
           Examples.nameless eq_refl).
  intros other [<- | [<- | [<- | []]]]; discriminate.
Defined.

(** In the script with the inline dataset, where identifiers are numbers:
    when no two records share an identifier, clicking a record's card opens
    that record. *)
Theorem inline_card_click_opens_own_project (db : list Inline.Project)
  (pg : Inline.Page) (item : Inline.Project) :
  NoDup (map Inline.id db) ->
  In item db ->
  let pg' := Inline.card_clicked db pg (Inline.renderCard item) in
  Inline.Lookup db (JS.Str (Dom.data_id (Inline.renderCard item))) = Some item
  /\ Dom.modalTitle_textContent (Inline.modal pg') = Inline.title item
  /\ Dom.modalContent_innerHTML (Inline.modal pg')
     = [Dom.Paragraph (Inline.description item);
        Dom.BadgeSection "Tech Stack" (Inline.tech item)]
  /\ Dom.infoModalContainer_hidden (Inline.modal pg') = false.
Proof.
  intros Hnd Hin pg'.
  assert (Hfound : Inline.Lookup db (JS.Str (Dom.data_id (Inline.renderCard item)))
                   = Some item).
  { apply find_Some_unique; [exact Hin | |].
    - simpl. rewrite StringToNumber_Number_toString. apply Z.eqb_refl.
    - intros other Hother Heq. simpl in Heq.
      rewrite StringToNumber_Number_toString in Heq. apply Z.eqb_eq in Heq.
      eapply NoDup_map_injective; eassumption. }
  split; [exact Hfound|].
  subst pg'. unfold Inline.card_clicked, Inline.openModal. rewrite Hfound.
  repeat split.
Qed.

Lemma inline_card_click_opens_own_project_witness :
  Dom.modalTitle_textContent
    (Inline.modal
       (Inline.card_clicked Inline.database Samples.blank_inline_page
          (Inline.renderCard Samples.project6)))
  = "Fitness Tracker App".
Proof.
  apply (inline_card_click_opens_own_project Inline.database
           Samples.blank_inline_page Samples.project6).
  - apply (bool_decide_unpack _). vm_compute. exact I.
  - do 5 right. left. reflexivity.
Defined.

(** ** The page in use *)
Section SessionFacts.
Import Session.

Lemma openModal_keeps (st : Fetched.State) (itemId : JS.Value) :
  Fetched.database (Fetched.openModal st itemId) = Fetched.database st
  /\ Fetched.results (Fetched.page (Fetched.openModal st itemId))
     = Fetched.results (Fetched.page st).
Proof.
  unfold Fetched.openModal.
  destruct (Fetched.Lookup (Fetched.database st) itemId); split; reflexivity.
Qed.

Lemma run_callback_database (cb : Callback) (st : Fetched.State)
  (checked : Fetched.Selection) :
  Fetched.database (run_callback cb st checked) = Fetched.database st.
Proof. now destruct cb. Qed.

Lemma run_due_database (target : nat) (q : list Timer) (st : Fetched.State)
  (checked : Fetched.Selection) :
  Fetched.database (fst (run_due target q st checked)) = Fetched.database st.
Proof.
  revert st. induction q as [|t q IH]; intros st; simpl; [reflexivity|].
  destruct (due t <=? target)%nat.
  - now rewrite IH, run_callback_database.
  - specialize (IH st). destruct (run_due target q st checked). exact IH.
Qed.

Lemma handle_database (b : Browser) (e : Event) :
  Fetched.database (script (handle b e)) = Fetched.database (script b).
Proof.
  destruct e as [checked| |i| | | |key|ms]; simpl; try reflexivity.
  - destruct (_ !! i); [apply openModal_keeps | reflexivity].
  - destruct (_ && _)%bool; reflexivity.
  - pose proof (run_due_database (clock b + ms) (pending b) (script b) (form b)) as H.
    destruct (run_due _ _ _ _). exact H.
Qed.

Lemma shows_ext (st st' : Fetched.State) (checked : Fetched.Selection) :
  Fetched.database st' = Fetched.database st ->
  Fetched.results (Fetched.page st') = Fetched.results (Fetched.page st) ->
  shows st checked -> shows st' checked.
Proof. unfold shows. intros -> ->. tauto. Qed.

Lemma filterData_shows (st : Fetched.State) (checked : Fetched.Selection) :
  shows (Fetched.filterData st checked) checked.
Proof.
  unfold shows, Fetched.filterData, Fetched.populateResults. simpl.
  repeat split.
  now destruct (Fetched.filteredItems (Fetched.database st) checked).
Qed.

Lemma run_callback_shows (cb : Callback) (st : Fetched.State)
  (checked : Fetched.Selection) :
  (cb <> RunFilterData -> shows st checked) ->
  shows (run_callback cb st checked) checked.
Proof.
  destruct cb; simpl; intros H.
  - eapply shows_ext; [| |apply H; discriminate]; reflexivity.
  - eapply shows_ext; [| |apply H; discriminate]; reflexivity.
  - apply filterData_shows.
Qed.

Lemma enqueue_In (t x : Timer) (q : list Timer) :
  In x (enqueue t q) <-> x = t \/ In x q.
Proof.
  induction q as [|t' q IH]; simpl; [intuition (subst; auto)|].
  destruct (due t' <=? due t)%nat; simpl; [rewrite IH|]; intuition (subst; auto).
Qed.

Lemma setTimeouts_pending_In (b : Browser) (new : list (nat * Callback)) (x : Timer) :
  In x (pending (setTimeouts b new))
  <-> In x (pending b)
      \/ exists dc, In dc new
                    /\ x = {| due := clock b + fst dc; callback := snd dc |}.
Proof.
  unfold setTimeouts. simpl. generalize (pending b) as q.
  induction new as [|dc new IH]; intros q; simpl.
  - split; [tauto|]. intros [H | (dc & [] & _)]. exact H.
  - rewrite IH, enqueue_In. split.
    + intros [[-> | H] | (dc' & Hin & ->)]; eauto.
    + intros [H | (dc' & [<- | Hin] & ->)]; eauto.
Qed.

Lemma scheduled_by_not_filter (before after : Fetched.State) (dc : nat * Callback) :
  In dc (scheduled_by before after) -> snd dc <> RunFilterData.
Proof.
  unfold scheduled_by. rewrite in_map_iff.
  intros ((d & t) & <- & _). simpl. now destruct t.
Qed.

(** Firing the due timers: if the display followed the form unless a filter
    run was waiting, it follows the form once no filter run waits. *)
Lemma run_due_shows (target : nat) (q : list Timer) (st : Fetched.State)
  (checked : Fetched.Selection) :
  (no_filter_pending q -> shows st checked) ->
  no_filter_pending (snd (run_due target q st checked)) ->
  shows (fst (run_due target q st checked)) checked.
Proof.
  revert st. induction q as [|t q IH]; intros st Hst Hrest; simpl in *.
  - apply Hst. intros t [].
  - destruct (due t <=? target)%nat.
    + apply IH; [|exact Hrest]. intros Hq. apply run_callback_shows.
      intros Ht. apply Hst. intros t' [<- | Ht']; [exact Ht | now apply Hq].
    + destruct (run_due target q st checked) as [st' rest] eqn:Hrun.
      simpl in *. specialize (IH st). rewrite Hrun in IH. simpl in IH.
      apply IH.
      * intros Hq. apply Hst. intros t' [<- | Ht']; [|now apply Hq].
        apply Hrest. now left.
      * intros t' Ht'. apply Hrest. now right.
Qed.

Lemma run_due_keeps_shows (target : nat) (q : list Timer) (st : Fetched.State)
  (checked : Fetched.Selection) :
  shows st checked -> shows (fst (run_due target q st checked)) checked.
Proof.
  revert st. induction q as [|t q IH]; intros st Hst; simpl; [exact Hst|].
  destruct (due t <=? target)%nat.
  - apply IH, run_callback_shows. auto.
  - specialize (IH st Hst). now destruct (run_due target q st checked).
Qed.

(** A filter run that is due fires, and the display follows the form from
    then on. *)
Lemma run_due_fires_filter (target : nat) (q : list Timer) (st : Fetched.State)
  (checked : Fetched.Selection) (t : Timer) :
  In t q -> callback t = RunFilterData -> (due t <= target)%nat ->
  shows (fst (run_due target q st checked)) checked.
Proof.
  revert st. induction q as [|t' q IH]; intros st Hin Hcb Hdue; simpl; [destruct Hin|].
  destruct (due t' <=? target)%nat eqn:Hle.
  - destruct Hin as [-> | Hin].
    + apply run_due_keeps_shows. rewrite Hcb. apply filterData_shows.
    + now apply IH.
  - destruct Hin as [-> | Hin].
    + apply Nat.leb_le in Hdue. congruence.
    + specialize (IH st Hin Hcb Hdue). now destruct (run_due target q st checked).
Qed.

Lemma loaded_shows (markup : Fetched.Page) (status : Z)
  (records : list Fetched.Resource) :
  shows (script (loaded markup (Fetched.Response true status (Fetched.Json records))))
        FetchedGroups.no_selection.
Proof.
  unfold shows. simpl.
  assert (Hall : Fetched.filteredItems records FetchedGroups.no_selection = records)
    by (apply filter_all; reflexivity).
  rewrite Hall. repeat split. now destruct records.
Qed.

(** The invariant of the page in use. *)
Lemma handle_follows_form (b : Browser) (e : Event) :
  (no_filter_pending (pending b) -> shows (script b) (form b)) ->
  no_filter_pending (pending (handle b e)) ->
  shows (script (handle b e)) (form (handle b e)).
Proof.
  intros Hinv.
  assert (Hopen : forall itemId,
             no_filter_pending (pending (open b itemId)) ->
             shows (script (open b itemId)) (form (open b itemId))).
  { intros itemId Hno. unfold open in *. simpl in *.
    eapply shows_ext; [apply openModal_keeps | apply openModal_keeps |].
    apply Hinv. intros t Ht. apply Hno.
    apply setTimeouts_pending_In. now left. }
  assert (Hclose : no_filter_pending (pending (close b)) ->
                   shows (script (close b)) (form (close b))).
  { intros Hno. unfold close in *. simpl in *.
    eapply shows_ext; [reflexivity | reflexivity |].
    apply Hinv. intros t Ht. apply Hno.
    apply enqueue_In. now right. }
  destruct e as [checked| |i| | | |key|ms]; simpl.
  - intros _. apply filterData_shows.
  - intros Hno. exfalso.
    apply (Hno {| due := clock b + 0; callback := RunFilterData |});
      [|reflexivity].
    apply enqueue_In. now left.
  - destruct (_ !! i); [apply Hopen | exact Hinv].
  - exact Hinv.
  - exact Hclose.
  - exact Hclose.
  - destruct (_ && _)%bool; [exact Hclose | exact Hinv].
  - pose proof (run_due_shows (clock b + ms) (pending b) (script b) (form b) Hinv)
      as Hrun.
    destruct (run_due _ _ _ _) as [st' rest]. exact Hrun.
Qed.

Lemma run_database (events : list Event) (b : Browser) :
  Fetched.database (script (run events b)) = Fetched.database (script b).
Proof.
  revert b. induction events as [|e events IH]; intros b; [reflexivity|].
  unfold run in *. simpl. now rewrite IH, handle_database.
Qed.

Lemma run_follows_form (events : list Event) (b : Browser) :
  (no_filter_pending (pending b) -> shows (script b) (form b)) ->
  no_filter_pending (pending (run events b)) ->
  shows (script (run events b)) (form (run events b)).
Proof.
  revert b. induction events as [|e events IH]; intros b Hinv; [exact Hinv|].
  unfold run in *. simpl. apply IH. now apply handle_follows_form.
Qed.

End SessionFacts.

(** The dataset is written by the load only: no sequence of form changes,
    resets, clicks, key presses and timers changes it. *)
Theorem dataset_never_changes (events : list Session.Event) (b : Session.Browser) :
  Fetched.database (Session.script (Session.run events b))
  = Fetched.database (Session.script b).
Proof. apply run_database. Qed.

(** After a load that delivered the records, and whatever the user does,
    the result area follows the form whenever no filter run is waiting on a
    timer: the grid holds the cards of exactly the records that match the
    checked boxes, in the dataset's order, the count gives their number and
    the size of the dataset, and the grid is hidden and the no-results
    message shown exactly when there is none. *)
Theorem display_follows_form (markup : Fetched.Page) (status : Z)
  (records : list Fetched.Resource) (events : list Session.Event) :
  let b := Session.run events
             (Session.loaded markup
                (Fetched.Response true status (Fetched.Json records))) in
  Session.no_filter_pending (Session.pending b) ->
  Session.shows (Session.script b) (Session.form b)
  /\ Fetched.database (Session.script b) = records.
Proof.
  intros b Hno. split.
  - apply run_follows_form; [|exact Hno].
    intros _. apply loaded_shows.
  - subst b.
    apply (run_database events
             (Session.loaded markup
                (Fetched.Response true status (Fetched.Json records)))).
Qed.

Lemma display_follows_form_witness :
  Dom.resultsCount_textContent
    (Fetched.results
       (Fetched.page
          (Session.script
             (Session.run
                [Session.Change Samples.select_A; Session.ClickCard 0;
                 Session.Wait 10; Session.KeyDown "Escape"; Session.Reset;
                 Session.Wait 400; Session.Change Samples.select_A_B]
                (Session.loaded Samples.blank_page
                   (Fetched.Response true 200 (Fetched.Json Samples.dataset)))))))
  = "Showing 1 of 2 results".
Proof.
  destruct (display_follows_form Samples.blank_page 200 Samples.dataset
              [Session.Change Samples.select_A; Session.ClickCard 0;
               Session.Wait 10; Session.KeyDown "Escape"; Session.Reset;
               Session.Wait 400; Session.Change Samples.select_A_B])
    as [(_ & Hcount & _) _].
  - intros t [].
  - rewrite Hcount. reflexivity.
Defined.

Section TimerFacts.
Import Session.

Lemma enqueue_firing_order (t : Timer) (q : list Timer) :
  in_firing_order q -> in_firing_order (enqueue t q).
Proof.
  unfold in_firing_order.
  induction 1 as [|t' q Hs IH Hall]; simpl; [repeat constructor|].
  destruct (due t' <=? due t)%nat eqn:Hle.
  - apply Nat.leb_le in Hle. constructor; [exact IH|].
    apply Forall_forall. intros x Hx. apply list_elem_of_In, enqueue_In in Hx.
    destruct Hx as [-> | Hx]; [exact Hle|].
    rewrite Forall_forall in Hall. apply Hall. now apply list_elem_of_In.
  - apply Nat.leb_gt in Hle. constructor; [now constructor|].
    constructor; [lia|]. eapply Forall_impl; [exact Hall|].
    intros x Hx. simpl in Hx. lia.
Qed.

Lemma run_due_rest_firing_order (target : nat) (q : list Timer)
  (st : Fetched.State) (checked : Fetched.Selection) :
  in_firing_order q -> in_firing_order (snd (run_due target q st checked)).
Proof.
  unfold in_firing_order. intros Hq. revert st.
  induction Hq as [|t q Hs IH Hall]; intros st; simpl; [constructor|].
  destruct (due t <=? target)%nat; [apply IH|].
  specialize (IH st).
  assert (Hsub : forall x, In x (snd (run_due target q st checked)) -> In x q).
  { clear. revert st. induction q as [|t' q IHq]; intros st x; simpl; [tauto|].
    destruct (due t' <=? target)%nat.
    - intros Hx. right. eapply IHq, Hx.
    - specialize (IHq st x). destruct (run_due target q st checked). simpl in *.
      tauto. }
  destruct (run_due target q st checked) as [st' rest]. simpl in *.
  constructor; [exact IH|].
  apply Forall_forall. intros x Hx. rewrite Forall_forall in Hall.
  apply Hall. apply list_elem_of_In, Hsub. now apply list_elem_of_In.
Qed.

(** In a queue in firing order the timers that fire are the ones at its
    front: nothing that stays stands before something that fires. *)
Lemma run_due_rest_not_due (target : nat) (q : list Timer)
  (st : Fetched.State) (checked : Fetched.Selection) (t : Timer) :
  In t (snd (run_due target q st checked)) -> (target < due t)%nat.
Proof.
  revert st. induction q as [|t' q IH]; intros st; simpl; [tauto|].
  destruct (due t' <=? target)%nat eqn:Hle; [apply IH|].
  specialize (IH st). destruct (run_due target q st checked). simpl in *.
  intros [<- | Ht]; [now apply Nat.leb_gt | now apply IH].
Qed.

Lemma handle_firing_order (b : Browser) (e : Event) :
  in_firing_order (pending b) -> in_firing_order (pending (handle b e)).
Proof.
  intros Hq.
  assert (Hopen : forall itemId, in_firing_order (pending (open b itemId))).
  { intros itemId. unfold open, setTimeouts. simpl.
    generalize (scheduled_by (script b) (Fetched.openModal (script b) itemId)).
    intros new. revert Hq. generalize (pending b) as q.
    induction new as [|dc new IH]; intros q Hq; simpl; [exact Hq|].
    apply IH. now apply enqueue_firing_order. }
  assert (Hclose : in_firing_order (pending (close b)))
    by (now apply enqueue_firing_order).
  destruct e as [checked| |i| | | |key|ms]; simpl; auto.
  - now apply enqueue_firing_order.
  - destruct (_ !! i); auto.
  - destruct (_ && _)%bool; auto.
  - pose proof (run_due_rest_firing_order (clock b + ms) (pending b) (script b)
                  (form b) Hq) as H.
    destruct (run_due _ _ _ _). exact H.
Qed.

(** Whatever happens on the page, the queue stays in firing order. *)
Lemma run_firing_order (events : list Event) (b : Browser) :
  in_firing_order (pending b) -> in_firing_order (pending (run events b)).
Proof.
  revert b. induction events as [|e events IH]; intros b Hq; [exact Hq|].
  unfold run in *. simpl. apply IH. now apply handle_firing_order.
Qed.

Lemma open_hit (b : Browser) (itemId : JS.Value) (item : Fetched.Resource) :
  Fetched.Lookup (Fetched.database (script b)) itemId = Some item ->
  open b itemId
  = {| clock := clock b;
       script := Fetched.openModal (script b) itemId;
       form := form b;
       pending := enqueue {| due := clock b + 10; callback := ShowPanel |}
                    (pending b) |}.
Proof.
  intros Hfound. unfold open, setTimeouts, scheduled_by. simpl.
  unfold Fetched.openModal. rewrite Hfound. simpl.
  now rewrite drop_app_length.
Qed.

End TimerFacts.

(** Resetting the form brings every record back: once the timer set by the
    reset listener has fired, the form has no box checked and the grid shows
    the whole dataset, whatever was shown and whatever else was pending. *)
Theorem reset_shows_everything (b : Session.Browser) (ms : nat) :
  let b' := Session.run [Session.Reset; Session.Wait ms] b in
  let db := Fetched.database (Session.script b) in
  Session.form b' = FetchedGroups.no_selection
  /\ Dom.resultsGrid_innerHTML (Fetched.results (Fetched.page (Session.script b')))
     = map Fetched.renderCard db
  /\ Dom.resultsCount_textContent (Fetched.results (Fetched.page (Session.script b')))
     = "Showing " ++ JS.Number_toString (Z.of_nat (List.length db))
       ++ " of " ++ JS.Number_toString (Z.of_nat (List.length db)) ++ " results".
Proof.
  intros b' db.
  assert (Hshows : Session.shows (Session.script b') FetchedGroups.no_selection
                   /\ Session.form b' = FetchedGroups.no_selection
                   /\ Fetched.database (Session.script b') = db).
  { subst b' db. unfold Session.run. simpl.
    pose proof (run_due_fires_filter (Session.clock b + ms)
                  (Session.enqueue
                     {| Session.due := Session.clock b + 0;
                        Session.callback := Session.RunFilterData |}
                     (Session.pending b))
                  (Session.script b) FetchedGroups.no_selection
                  {| Session.due := Session.clock b + 0;
                     Session.callback := Session.RunFilterData |}) as Hfire.
    pose proof (run_due_database (Session.clock b + ms)
                  (Session.enqueue
                     {| Session.due := Session.clock b + 0;
                        Session.callback := Session.RunFilterData |}
                     (Session.pending b))
                  (Session.script b) FetchedGroups.no_selection) as Hdb.
    destruct (Session.run_due _ _ _ _) as [st' rest]. simpl in *.
    split; [|split; [reflexivity | exact Hdb]].
    apply Hfire; [apply enqueue_In; now left | reflexivity | lia]. }
  destruct Hshows as ((Hgrid & Hcount & _) & Hform & Hdb).
  assert (Hall : Fetched.filteredItems db FetchedGroups.no_selection = db)
    by (apply filter_all; reflexivity).
  rewrite Hdb, Hall in Hgrid, Hcount. auto.
Qed.

Section ModalTimers.
Import Session.

Lemma close_eq (b : Browser) :
  close b
  = {| clock := clock b;
       script := fst (closeModal (script b));
       form := form b;
       pending := enqueue {| due := clock b + 300; callback := HideContainer |}
                    (pending b) |}.
Proof. reflexivity. Qed.

(** A closing event on a page whose modal container is shown runs
    [closeModal]. *)
Lemma handle_closes (b : Browser) (e : Event) :
  closes e ->
  Dom.infoModalContainer_hidden (Fetched.modal (Fetched.page (script b))) = false ->
  handle b e = close b.
Proof.
  intros [-> | [-> | ->]] Hshown; simpl; try reflexivity.
  now rewrite Hshown.
Qed.

End ModalTimers.

(** Opening and closing the modal.  From a page with no timer pending, a
    click on a card whose id finds a record shows the container at once and
    the panel when at least 10 ms have passed, with scrolling blocked.  Then
    the close button, the overlay or the Escape key hides the panel at once
    and, when at least 300 ms have passed, the container, and gives scrolling
    back; the title and body of the record stay in the hidden modal, and no
    timer is left. *)
Theorem modal_opens_then_closes (b : Session.Browser) (i : nat) (card : Dom.Card)
  (item : Fetched.Resource) (e : Session.Event) (d1 d2 : nat) :
  Session.pending b = [] ->
  Dom.resultsGrid_innerHTML (Fetched.results (Fetched.page (Session.script b))) !! i
  = Some card ->
  Fetched.Lookup (Fetched.database (Session.script b)) (JS.Str (Dom.data_id card))
  = Some item ->
  Session.closes e ->
  (10 <= d1)%nat -> (300 <= d2)%nat ->
  let clicked := Session.run [Session.ClickCard i] b in
  let opened := Session.run [Session.Wait d1] clicked in
  let closing := Session.run [e] opened in
  let closed := Session.run [Session.Wait d2] closing in
  let modal_of x := Fetched.modal (Fetched.page (Session.script x)) in
  (Dom.infoModalContainer_hidden (modal_of clicked) = false
   /\ Dom.body_style_overflow (modal_of clicked) = "hidden")
  /\ (Dom.infoModalContainer_hidden (modal_of opened) = false
      /\ Dom.infoModal_hidden (modal_of opened) = false
      /\ Dom.body_style_overflow (modal_of opened) = "hidden"
      /\ Dom.modalTitle_textContent (modal_of opened) = Fetched.Name item)
  /\ (Dom.infoModalContainer_hidden (modal_of closing) = false
      /\ Dom.infoModal_hidden (modal_of closing) = true)
  /\ (Dom.infoModalContainer_hidden (modal_of closed) = true
      /\ Dom.infoModal_hidden (modal_of closed) = true
      /\ Dom.body_style_overflow (modal_of closed) = ""
      /\ Dom.modalTitle_textContent (modal_of closed) = Fetched.Name item
      /\ Dom.modalContent_innerHTML (modal_of closed)
         = Dom.modalContent_innerHTML (modal_of opened)
      /\ Session.pending closed = []).
Proof.
  intros Hpending Hcard Hfound He Hd1 Hd2 clicked opened closing closed modal_of.
  assert (Hclicked : clicked
                     = {| Session.clock := Session.clock b;
                          Session.script :=
                            Fetched.openModal (Session.script b)
                              (JS.Str (Dom.data_id card));
                          Session.form := Session.form b;
                          Session.pending :=
                            [{| Session.due := Session.clock b + 10;
                                Session.callback := Session.ShowPanel |}] |}).
  { subst clicked. unfold Session.run. simpl. rewrite Hcard.
    rewrite (open_hit b _ item Hfound), Hpending. reflexivity. }
  assert (Hopened : opened
                    = {| Session.clock := Session.clock b + d1;
                         Session.script :=
                           Session.run_callback Session.ShowPanel
                             (Fetched.openModal (Session.script b)
                                (JS.Str (Dom.data_id card)))
                             (Session.form b);
                         Session.form := Session.form b;
                         Session.pending := [] |}).
  { subst opened. rewrite Hclicked. unfold Session.run. simpl.
    assert (Hle : (Session.clock b + 10 <=? Session.clock b + d1)%nat = true)
      by (apply Nat.leb_le; lia).
    now rewrite Hle. }
  assert (Hshown : Dom.infoModalContainer_hidden (modal_of opened) = false).
  { subst modal_of. rewrite Hopened. simpl.
    unfold Fetched.openModal. now rewrite Hfound. }
  assert (Hclosing : closing = Session.close opened).
  { subst closing. unfold Session.run. simpl. now apply handle_closes. }
  assert (Hclosed : closed
                    = {| Session.clock := Session.clock b + d1 + d2;
                         Session.script :=
                           Session.run_callback Session.HideContainer
                             (fst (Session.closeModal (Session.script opened)))
                             (Session.form b);
                         Session.form := Session.form b;
                         Session.pending := [] |}).
  { subst closed. rewrite Hclosing, close_eq. unfold Session.run. simpl.
    rewrite Hopened. simpl.
    assert (Hle : (Session.clock b + d1 + 300 <=? Session.clock b + d1 + d2)%nat
                  = true) by (apply Nat.leb_le; lia).
    now rewrite Hle. }
  subst modal_of. cbv beta.
  rewrite Hclosed, Hclosing, close_eq, Hopened, Hclicked. simpl.
  unfold Fetched.openModal. rewrite Hfound. simpl.
  repeat split.
Qed.

Lemma modal_opens_then_closes_witness :
  Dom.infoModalContainer_hidden
    (Fetched.modal
       (Fetched.page
          (Session.script
             (Session.run
                [Session.ClickCard 0; Session.Wait 10; Session.KeyDown "Escape";
                 Session.Wait 300]
                (Session.loaded Samples.blank_page
                   (Fetched.Response true 200 (Fetched.Json Samples.dataset)))))))
  = true.
Proof.
  assert (Hclose : Session.closes (Session.KeyDown "Escape"))
    by (right; right; reflexivity).
  assert (Hd1 : (10 <= 10)%nat) by lia.
  assert (Hd2 : (300 <= 300)%nat) by lia.
  exact (proj1 (proj2 (proj2 (proj2
           (modal_opens_then_closes
              (Session.loaded Samples.blank_page
                 (Fetched.Response true 200 (Fetched.Json Samples.dataset)))
              0 (Fetched.renderCard Samples.record1) Samples.record1
              (Session.KeyDown "Escape") 10 300
              eq_refl eq_refl eq_refl Hclose Hd1 Hd2))))).
Defined.

(** Closing before the panel has appeared.  When the modal is closed less
    than 10 ms after the click that opened it, the timer of [openModal] is
    still pending and fires after [closeModal] has hidden the panel: once
    both timers have fired the container is hidden and scrolling is back,
    but the panel is left without its [hidden] class. *)
Theorem modal_closed_before_panel_shown (b : Session.Browser) (i : nat)
  (card : Dom.Card) (item : Fetched.Resource) (e : Session.Event) (d1 d2 : nat) :
  Session.pending b = [] ->
  Dom.resultsGrid_innerHTML (Fetched.results (Fetched.page (Session.script b))) !! i
  = Some card ->
  Fetched.Lookup (Fetched.database (Session.script b)) (JS.Str (Dom.data_id card))
  = Some item ->
  Session.closes e ->
  (d1 < 10)%nat -> (300 <= d2)%nat ->
  let closed := Session.run [Session.ClickCard i; Session.Wait d1; e; Session.Wait d2] b in
  let m := Fetched.modal (Fetched.page (Session.script closed)) in
  Dom.infoModalContainer_hidden m = true
  /\ Dom.infoModal_hidden m = false
  /\ Dom.body_style_overflow m = ""
  /\ Session.pending closed = [].
Proof.
  intros Hpending Hcard Hfound He Hd1 Hd2 closed m. subst m closed.
  unfold Session.run.
  cbn [fold_left]. cbn [Session.handle]. rewrite Hcard.
  rewrite (open_hit b _ item Hfound), Hpending.
  cbn [Session.enqueue Session.clock Session.pending Session.script Session.form].
  cbn [Session.run_due Session.due].
  assert (Hgt : (Session.clock b + 10 <=? Session.clock b + d1)%nat = false)
    by (apply Nat.leb_gt; lia).
  rewrite Hgt.
  set (waiting := {| Session.clock := Session.clock b + d1;
                     Session.script := _; Session.form := _;
                     Session.pending := _ |}).
  assert (Hshown : Dom.infoModalContainer_hidden
                     (Fetched.modal (Fetched.page (Session.script waiting)))
                   = false).
  { subst waiting. simpl. unfold Fetched.openModal. now rewrite Hfound. }
  rewrite (handle_closes waiting e He Hshown), close_eq.
  subst waiting.
  cbn [Session.handle Session.enqueue Session.clock Session.pending Session.script
       Session.form Session.due].
  assert (Hle1 : (Session.clock b + 10 <=? Session.clock b + d1 + 300)%nat = true)
    by (apply Nat.leb_le; lia).
  rewrite Hle1. cbn [Session.run_due Session.due Session.callback].
  assert (Hle2 : (Session.clock b + 10 <=? Session.clock b + d1 + d2)%nat = true)
    by (apply Nat.leb_le; lia).
  assert (Hle3 : (Session.clock b + d1 + 300 <=? Session.clock b + d1 + d2)%nat
                 = true) by (apply Nat.leb_le; lia).
  rewrite Hle2, Hle3. simpl.
  repeat split.
Qed.

Lemma modal_closed_before_panel_shown_witness :
  Dom.infoModal_hidden
    (Fetched.modal
       (Fetched.page
          (Session.script
             (Session.run
                [Session.ClickCard 0; Session.Wait 3; Session.KeyDown "Escape";
                 Session.Wait 300]
                (Session.loaded Samples.blank_page
                   (Fetched.Response true 200 (Fetched.Json Samples.dataset)))))))
  = false.
Proof.
  assert (Hclose : Session.closes (Session.KeyDown "Escape"))
    by (right; right; reflexivity).
  assert (Hd1 : (3 < 10)%nat) by lia.
  assert (Hd2 : (300 <= 300)%nat) by lia.
  exact (proj1 (proj2
           (modal_closed_before_panel_shown
              (Session.loaded Samples.blank_page
                 (Fetched.Response true 200 (Fetched.Json Samples.dataset)))
              0 (Fetched.renderCard Samples.record1) Samples.record1
              (Session.KeyDown "Escape") 3 300
              eq_refl eq_refl eq_refl Hclose Hd1 Hd2))).
Defined.

(** ** The ids of the checkboxes *)
Section CheckboxIdFacts.
Import CheckboxId.

Lemma lower_facts (c : ascii) :
  Ascii.eqb (toLowerCase_char c) "-" = Ascii.eqb c "-"
  /\ is_alphanumeric (toLowerCase_char c) = is_alphanumeric c
  /\ JS.isWhiteSpace (toLowerCase_char c) = JS.isWhiteSpace c
  /\ is_upper (toLowerCase_char c) = false
  /\ toLowerCase_char (toLowerCase_char c) = toLowerCase_char c
  /\ (is_alphanumeric c = true -> is_id_char (toLowerCase_char c) = true)
  /\ (is_alphanumeric c = true -> JS.isWhiteSpace c = false)
  /\ (JS.isWhiteSpace c = true -> is_alphanumeric c = false)
  /\ (is_alphanumeric c = true -> Ascii.eqb c "-" = false).
Proof.
  destruct c as [[] [] [] [] [] [] [] []]; vm_compute; repeat split; congruence.
Qed.

Lemma id_char_facts (c : ascii) :
  is_id_char c = true ->
  toLowerCase_char c = c
  /\ is_alphanumeric c = negb (Ascii.eqb c "-").
Proof.
  destruct c as [[] [] [] [] [] [] [] []]; vm_compute; intros H;
    first [discriminate H | split; reflexivity].
Qed.

Lemma no_double_hyphen_cons (a b : ascii) (s : string) :
  no_double_hyphen (String a (String b s))
  = negb (Ascii.eqb a "-" && Ascii.eqb b "-") && no_double_hyphen (String b s).
Proof. reflexivity. Qed.

Lemma replace_runs_shape (in_class : ascii -> bool) (b : bool) (s : string) :
  (forall c, in_class c = false -> Ascii.eqb c "-" = false) ->
  no_double_hyphen (replace_runs in_class b s) = true
  /\ (b = true -> starts_with_hyphen (replace_runs in_class b s) = false).
Proof.
  intros Hclass. revert b. induction s as [|c s IH]; intros b;
    cbn [replace_runs].
  - split; [reflexivity|]. reflexivity.
  - destruct (in_class c) eqn:Hc.
    + destruct b.
      * apply IH.
      * destruct (IH true) as [Hnd Hstart]. specialize (Hstart eq_refl).
        split; [|discriminate].
        destruct (replace_runs in_class true s) as [|c' s'] eqn:Hr;
          [reflexivity|].
        cbn [starts_with_hyphen] in Hstart.
        now rewrite no_double_hyphen_cons, Hstart, andb_false_r, Hnd.
    + destruct (IH false) as [Hnd _]. split.
      * destruct (replace_runs in_class false s) as [|c' s'];
          [reflexivity|].
        now rewrite no_double_hyphen_cons, (Hclass c Hc), Hnd.
      * intros _. cbn [starts_with_hyphen]. now apply Hclass.
Qed.

Lemma toLowerCase_no_double_hyphen (s : string) :
  no_double_hyphen (toLowerCase s) = no_double_hyphen s
  /\ starts_with_hyphen (toLowerCase s) = starts_with_hyphen s.
Proof.
  induction s as [|c s [IH1 IH2]]; [split; reflexivity|].
  cbn [toLowerCase starts_with_hyphen].
  split; [|apply lower_facts].
  destruct s as [|c' s']; [reflexivity|].
  cbn [toLowerCase] in *. rewrite !no_double_hyphen_cons, IH1.
  now rewrite (proj1 (lower_facts c)), (proj1 (lower_facts c')).
Qed.

Lemma sanitize_alphanumeric_chars (b : bool) (s : string) :
  forall_chars is_id_char
    (toLowerCase (replace_runs (fun c => negb (is_alphanumeric c)) b s)) = true.
Proof.
  revert b. induction s as [|c s IH]; intros b; simpl; [reflexivity|].
  destruct (is_alphanumeric c) eqn:Hc; simpl.
  - rewrite IH, andb_true_r. now apply lower_facts.
  - destruct b; simpl; rewrite IH; reflexivity.
Qed.

Lemma toLowerCase_id_chars (s : string) :
  forall_chars is_id_char s = true -> toLowerCase s = s.
Proof.
  induction s as [|c s IH]; simpl; [reflexivity|].
  intros H. apply andb_true_iff in H as [Hc Hs].
  now rewrite (proj1 (id_char_facts c Hc)), IH.
Qed.

Lemma replace_runs_id_chars (b : bool) (s : string) :
  forall_chars is_id_char s = true ->
  no_double_hyphen s = true ->
  (b = true -> starts_with_hyphen s = false) ->
  replace_runs (fun c => negb (is_alphanumeric c)) b s = s.
Proof.
  revert b. induction s as [|c s IH]; intros b Hchars Hnd Hstart; simpl;
    [reflexivity|].
  simpl in Hchars. apply andb_true_iff in Hchars as [Hc Hs].
  rewrite (proj2 (id_char_facts c Hc)), negb_involutive.
  assert (Hnd' : no_double_hyphen s = true).
  { simpl in Hnd. destruct s; [reflexivity|].
    now apply andb_true_iff in Hnd as [_ Hnd]. }
  destruct (Ascii.eqb c "-") eqn:Hh.
  - apply Ascii.eqb_eq in Hh. subst c.
    destruct b; [specialize (Hstart eq_refl); discriminate|].
    f_equal. apply IH; auto.
    intros _. simpl in Hnd. destruct s as [|c' s']; [reflexivity|].
    simpl. apply andb_true_iff in Hnd as [Hnd _].
    now destruct (Ascii.eqb c' "-").
  - f_equal. apply IH; auto. discriminate.
Qed.

Lemma sanitize_lowered (in_class : ascii -> bool) (b : bool) (s : string) :
  (forall c, in_class (toLowerCase_char c) = in_class c) ->
  toLowerCase (replace_runs in_class b (toLowerCase s))
  = toLowerCase (replace_runs in_class b s).
Proof.
  intros Hclass. revert b. induction s as [|c s IH]; intros b; simpl;
    [reflexivity|].
  rewrite Hclass. destruct (in_class c); [destruct b|]; simpl; rewrite ?IH;
    try reflexivity.
  f_equal. apply lower_facts.
Qed.

Lemma sanitize_whitespace_chars (b : bool) (s : string) :
  forall_chars (fun c => negb (JS.isWhiteSpace c) && negb (is_upper c))
    (toLowerCase (replace_runs JS.isWhiteSpace b s)) = true.
Proof.
  revert b. induction s as [|c s IH]; intros b; simpl; [reflexivity|].
  destruct (JS.isWhiteSpace c) eqn:Hc; simpl.
  - destruct b; simpl; rewrite IH; reflexivity.
  - rewrite IH, andb_true_r.
    destruct (lower_facts c) as (_ & _ & Hws & Hup & _).
    now rewrite Hws, Hup, Hc.
Qed.

Lemma replace_runs_agree (b : bool) (s : string) :
  forall_chars (fun c => is_alphanumeric c || JS.isWhiteSpace c) s = true ->
  replace_runs JS.isWhiteSpace b s
  = replace_runs (fun c => negb (is_alphanumeric c)) b s.
Proof.
  revert b. induction s as [|c s IH]; intros b; simpl; [reflexivity|].
  intros H. apply andb_true_iff in H as [Hc Hs].
  assert (Hsame : JS.isWhiteSpace c = negb (is_alphanumeric c)).
  { destruct (lower_facts c) as (_ & _ & _ & _ & _ & _ & Ha & Hw & _).
    destruct (is_alphanumeric c) eqn:Hal; simpl in *; [now apply Ha|].
    exact Hc. }
  rewrite Hsame. destruct (negb (is_alphanumeric c)); [destruct b|];
    now rewrite IH.
Qed.

End CheckboxIdFacts.

(** The id the stand-alone script gives a checkbox is the name, a hyphen and
    a text made of lower-case letters, digits and hyphens only, with no two
    hyphens side by side; sanitising that text again changes nothing. *)
Theorem id_alphanumeric_shape (name value : string) :
  CheckboxId.id_alphanumeric name value
  = name ++ "-" ++ CheckboxId.sanitize_alphanumeric value
  /\ CheckboxId.forall_chars CheckboxId.is_id_char
       (CheckboxId.sanitize_alphanumeric value) = true
  /\ CheckboxId.no_double_hyphen (CheckboxId.sanitize_alphanumeric value) = true
  /\ CheckboxId.sanitize_alphanumeric (CheckboxId.sanitize_alphanumeric value)
     = CheckboxId.sanitize_alphanumeric value.
Proof.
  assert (Hchars : CheckboxId.forall_chars CheckboxId.is_id_char
                     (CheckboxId.sanitize_alphanumeric value) = true)
    by apply sanitize_alphanumeric_chars.
  assert (Hnd : CheckboxId.no_double_hyphen (CheckboxId.sanitize_alphanumeric value)
                = true).
  { unfold CheckboxId.sanitize_alphanumeric.
    rewrite (proj1 (toLowerCase_no_double_hyphen _)).
    apply replace_runs_shape. intros c Hc. apply negb_false_iff in Hc.
    now apply lower_facts. }
  split; [reflexivity|]. split; [exact Hchars|]. split; [exact Hnd|].
  unfold CheckboxId.sanitize_alphanumeric at 1.
  rewrite replace_runs_id_chars; [now apply toLowerCase_id_chars | exact Hchars
                                  | exact Hnd | discriminate].
Qed.

(** The id the second script of [Logic.js] gives a checkbox is the name, a
    hyphen and a text without white space and without capital letters. *)
Theorem id_whitespace_shape (name value : string) :
  CheckboxId.id_whitespace name value
  = name ++ "-" ++ CheckboxId.sanitize_whitespace value
  /\ CheckboxId.forall_chars
       (fun c => negb (JS.isWhiteSpace c) && negb (CheckboxId.is_upper c))
       (CheckboxId.sanitize_whitespace value) = true.
Proof. split; [reflexivity | apply sanitize_whitespace_chars]. Qed.

(** Both scripts ignore the case of the value, so two values that differ
    only in case get the same id; and they give the same id to every value
    made of letters, digits and white space. *)
Theorem checkbox_ids_agree (name value : string) :
  CheckboxId.id_whitespace name (CheckboxId.toLowerCase value)
  = CheckboxId.id_whitespace name value
  /\ CheckboxId.id_alphanumeric name (CheckboxId.toLowerCase value)
     = CheckboxId.id_alphanumeric name value
  /\ (CheckboxId.forall_chars
        (fun c => CheckboxId.is_alphanumeric c || JS.isWhiteSpace c) value = true ->
      CheckboxId.id_whitespace name value = CheckboxId.id_alphanumeric name value).
Proof.
  unfold CheckboxId.id_whitespace, CheckboxId.id_alphanumeric,
    CheckboxId.sanitize_whitespace, CheckboxId.sanitize_alphanumeric.
  split; [|split].
  - rewrite sanitize_lowered; [reflexivity|]. intros c. apply lower_facts.
  - rewrite sanitize_lowered; [reflexivity|]. intros c.
    now rewrite (proj1 (proj2 (lower_facts c))).
  - intros Hvalue. now rewrite replace_runs_agree.
Qed.

Lemma checkbox_ids_agree_witness :
  CheckboxId.id_whitespace "areas-of-support" "Executive  Function"
  = CheckboxId.id_alphanumeric "areas-of-support" "Executive  Function"
  /\ CheckboxId.id_alphanumeric "areas-of-support" "Executive  Function"
     = "areas-of-support-executive-function".
Proof.
  split; [|reflexivity].
  apply (proj2 (proj2 (checkbox_ids_agree "areas-of-support" "Executive  Function"))).
  reflexivity.
Defined.

Example checkbox_id_samples :
  CheckboxId.id_whitespace "price" "Free / Paid" = "price-free-/-paid"
  /\ CheckboxId.id_alphanumeric "price" "Free / Paid" = "price-free-paid"
  /\ CheckboxId.id_alphanumeric "format" "1:1 (online)" = "format-1-1-online-"
  /\ CheckboxId.id_whitespace "format" "A - b" = "format-a---b".
Proof. repeat split. Qed.
